(** * cloudflare-token-generator: the policy resolution engine

    A shallow embedding of package [cftoken] (the generator with
    [GenerateMulti] and [GodMode], the static service catalog, and the
    earlier stand-alone [Generate]) together with the properties its
    specification states about it. *)

From Stdlib Require Import Ascii String DecimalString DecimalNat.
From stdpp Require Import gmap strings list sorting.

Local Open Scope list_scope.

(** ** Go's [strings] package

    Go strings are byte sequences; [string] (a list of 8-bit [ascii]) is
    exactly that.  [Contains] and [Join] work on bytes and are modelled in
    full.  [ToLower] and [TrimSpace] decode UTF-8 and consult the Unicode
    tables; both have a byte-wise path for input without a byte >= 0x80,
    and that path is what is fixed here.  What they return on other input is
    left open: the engine is stated over any pair of functions that agree
    with the byte-wise ones on ASCII input. *)

Module strings.

(** [strings.Contains(s, substr)]: [substr] occurs in [s] as a run of
    bytes; the empty string occurs in every string. *)
Fixpoint Contains (s substr : string) : bool :=
  String.prefix substr s ||
  match s with
  | EmptyString => false
  | String _ s' => Contains s' substr
  end.

#[global] Arguments Contains : simpl never.

(** [strings.Join(elems, sep)]. *)
Definition Join (elems : list string) (sep : string) : string :=
  String.concat sep elems.

(** A byte below [utf8.RuneSelf] (0x80). *)
Definition is_ascii_byte (c : ascii) : bool :=
  (nat_of_ascii c <? 128)%nat.

Fixpoint is_ascii (s : string) : bool :=
  match s with
  | EmptyString => true
  | String c s' => is_ascii_byte c && is_ascii s'
  end.

(** ['A' <= c && c <= 'Z'] gives [c + ('a' - 'A')]. *)
Definition lower_byte (c : ascii) : ascii :=
  let n := nat_of_ascii c in
  if ((65 <=? n) && (n <=? 90))%nat then ascii_of_nat (n + 32) else c.

Fixpoint ascii_ToLower (s : string) : string :=
  match s with
  | EmptyString => EmptyString
  | String c s' => String (lower_byte c) (ascii_ToLower s')
  end.

(** The table [asciiSpace]: tab, newline, vertical tab, form feed,
    carriage return, space. *)
Definition asciiSpace (c : ascii) : bool :=
  let n := nat_of_ascii c in
  ((n =? 9) || (n =? 10) || (n =? 11) || (n =? 12) || (n =? 13) || (n =? 32))%nat.

Fixpoint trim_left (s : string) : string :=
  match s with
  | EmptyString => EmptyString
  | String c s' => if asciiSpace c then trim_left s' else s
  end.

(** Dropping the trailing run of spaces, right to left. *)
Fixpoint trim_right (s : string) : string :=
  match s with
  | EmptyString => EmptyString
  | String c s' =>
      match trim_right s' with
      | EmptyString => if asciiSpace c then EmptyString else String c EmptyString
      | t => String c t
      end
  end.

Definition ascii_TrimSpace (s : string) : string :=
  trim_right (trim_left s).

(** The two Unicode-aware functions, known on ASCII input. *)
Class Unicode := {
  ToLower : string → string;
  TrimSpace : string → string;
  ToLower_ascii : ∀ s, is_ascii s = true → ToLower s = ascii_ToLower s;
  TrimSpace_ascii : ∀ s, is_ascii s = true → TrimSpace s = ascii_TrimSpace s
}.

(** The byte-wise functions themselves: the instance the engine is run
    with on concrete (ASCII) requests. *)
#[global] Instance bytewise : Unicode := {|
  ToLower := ascii_ToLower;
  TrimSpace := ascii_TrimSpace;
  ToLower_ascii := λ _ _, eq_refl;
  TrimSpace_ascii := λ _ _, eq_refl
|}.

End strings.

(** ** The data of [services.go] *)

(** [type ResourceScope string] with its two constants. *)
Definition ResourceScope := string.
Definition ResourceScopeZone : ResourceScope := "zone".
Definition ResourceScopeAccount : ResourceScope := "account".

Module Permission.
Record t := mk { ID : string; Name : string }.
End Permission.

Module Service.
Record t := mk {
  Name : string;
  Description : string;
  ResourceScope : ResourceScope;
  Permissions : list Permission.t
}.
End Service.

(** The entries of the map literal [Services], in the order of the file. *)
Definition Services_entries : list (string * Service.t) :=
  [ ("dns", Service.mk "dns" "DNS records management" ResourceScopeZone
       [ Permission.mk "82e64a83756745bbbb1c9c2701bf816b" "DNS Read";
         Permission.mk "4755a26eedb94da69e1066d98aa820be" "DNS Write" ]);
    ("zone", Service.mk "zone" "Zone settings management" ResourceScopeZone
       [ Permission.mk "c8fed203ed3043cba015a93ad1616f1f" "Zone Read";
         Permission.mk "3030687196b94b638145a3953da2b699" "Zone Settings Write" ]);
    ("cache", Service.mk "cache" "Cache purge" ResourceScopeZone
       [ Permission.mk "e17beae8b8cb423a99b1730f21238bed" "Cache Purge" ]);
    ("firewall", Service.mk "firewall" "Firewall services" ResourceScopeZone
       [ Permission.mk "4ec32dfcb35641c5bb32d5ef1ab963b4" "Firewall Services Read";
         Permission.mk "43137f8d07884d3198dc0ee77ca6e79b" "Firewall Services Write" ]);
    ("ssl", Service.mk "ssl" "SSL and certificates management" ResourceScopeZone
       [ Permission.mk "7b7216b327b04b8fbc8f524e1f9b7531" "SSL and Certificates Read";
         Permission.mk "c03055bc037c4ea9afb9a9f104b7b721" "SSL and Certificates Write" ]);
    ("waf", Service.mk "waf" "Zone WAF management" ResourceScopeZone
       [ Permission.mk "dbc512b354774852af2b5a5f4ba3d470" "Zone WAF Read";
         Permission.mk "fb6778dc191143babbfaa57993f1d275" "Zone WAF Write" ]);
    ("loadbalancer", Service.mk "loadbalancer" "Load balancer management" ResourceScopeZone
       [ Permission.mk "e9a975f628014f1d85b723993116f7d5" "Load Balancers Read";
         Permission.mk "6d7f2f5f5b1d4a0e9081fdc98d432fd1" "Load Balancers Write" ]);
    ("pagerules", Service.mk "pagerules" "Page rules management" ResourceScopeZone
       [ Permission.mk "b415b70a4fd1412886f164451f20405c" "Page Rules Read";
         Permission.mk "ed07f6c337da4195b4e72a1fb2c6bcae" "Page Rules Write" ]);
    ("workers", Service.mk "workers" "Workers scripts management" ResourceScopeAccount
       [ Permission.mk "1a71c399035b4950a1bd1466bbe4f420" "Workers Scripts Read";
         Permission.mk "e086da7e2179491d91ee5f35b3ca210a" "Workers Scripts Write" ]);
    ("kv", Service.mk "kv" "Workers KV storage" ResourceScopeAccount
       [ Permission.mk "8b47d2786a534c08a1f94ee8f9f599ef" "Workers KV Storage Read";
         Permission.mk "f7f0eda5697f475c90846e879bab8666" "Workers KV Storage Write" ]);
    ("r2", Service.mk "r2" "Workers R2 object storage" ResourceScopeAccount
       [ Permission.mk "b4992e1108244f5d8bfbd5744320c2e1" "Workers R2 Storage Read";
         Permission.mk "bf7481a1826f439697cb59a20b22293e" "Workers R2 Storage Write" ]);
    ("pages", Service.mk "pages" "Cloudflare Pages" ResourceScopeAccount
       [ Permission.mk "e247aedd66bd41cc9193af0213416666" "Pages Read";
         Permission.mk "8d28297797f24fb8a29572aaac2f254d" "Pages Write" ]);
    ("d1", Service.mk "d1" "D1 database" ResourceScopeAccount
       [ Permission.mk "192192df92ee43ac90f2aeeffce67e35" "D1 Read";
         Permission.mk "09b2857d1c31407795e75e3fed8617a1" "D1 Write" ]);
    ("queues", Service.mk "queues" "Cloudflare Queues" ResourceScopeAccount
       [ Permission.mk "84a7755d54c646ca87cd50682a34bf7c" "Queues Read";
         Permission.mk "366f57075ffc42689627bcf8242a1b6d" "Queues Write" ]);
    ("ai", Service.mk "ai" "Workers AI inference" ResourceScopeAccount
       [ Permission.mk "a92d2450e05d4e7bb7d0a64968f83d11" "Workers AI Read";
         Permission.mk "bacc64e0f6c34fc0883a1223f938a104" "Workers AI Write" ]);
    ("stream", Service.mk "stream" "Cloudflare Stream video" ResourceScopeAccount
       [ Permission.mk "de21485a24744b76a004aa153898f7fe" "Stream Read";
         Permission.mk "714f9c13a5684c2885a793f5edb36f59" "Stream Write" ]);
    ("images", Service.mk "images" "Cloudflare Images" ResourceScopeAccount
       [ Permission.mk "0cf6473ad41449e7b7b743d14fc20c60" "Images Read";
         Permission.mk "618ec6c64a3a42f8b08bdcb147ded4e4" "Images Write" ]);
    ("tunnels", Service.mk "tunnels" "Cloudflare Tunnel management" ResourceScopeAccount
       [ Permission.mk "efea2ab8357b47888938f101ae5e053f" "Cloudflare Tunnel Read";
         Permission.mk "c07321b023e944ff818fec44d8203567" "Cloudflare Tunnel Write" ]) ].

(** [var Services = map[string]Service{...}]. *)
Definition Services : gmap string Service.t := list_to_map Services_entries.

(** ** The wire types of [cloudflare-go] the generator fills in *)

Module cloudflare.

(** [APITokenPermissionGroups]; the generator sets [ID] only. *)
Record APITokenPermissionGroups := mkPermissionGroups { ID : string }.

(** [APITokenPolicies]; [Resources] is a [map[string]interface{}] whose
    values are always the string ["*"] here. *)
Record APITokenPolicies := mkPolicies {
  Effect : string;
  Resources : gmap string string;
  PermissionGroups : list APITokenPermissionGroups
}.

Record APIToken := mkToken {
  Name : string;
  Policies : list APITokenPolicies
}.

End cloudflare.

(** [permissionGroup], an element of the platform's permission-group list. *)
Module permissionGroup.
Record t := mk { ID : string; Name : string; Scopes : list string }.
End permissionGroup.

(** ** Errors and the remote platform *)

(** One constructor per [fmt.Errorf] of the package, with the values the
    message is formatted from. *)
Inductive error :=
| ErrInvalidLevel (level : string)
| ErrUnknownService (s : string)
| ErrUnsupportedLevel (name level available : string)
| ErrAccountIDRequired (name : string)
| ErrGodModeAccountIDRequired
| ErrCreatingToken (cause : string)
| ErrFetchingPermissionGroups (cause : string)
| ErrDecodingPermissionGroups (cause : string)
| ErrAPISuccessFalse (status : Z).

(** A Go result pair [(v, err)]. *)
Inductive result (A : Type) :=
| Ok (v : A)
| Err (e : error).
Arguments Ok {A} v.
Arguments Err {A} e.

(** What the permission-groups endpoint answers to the GET request. *)
Inductive HTTPReply :=
| DoFailed (cause : string)
| DecodeFailed (cause : string)
| Decoded (success : bool) (statusCode : Z) (groups : list permissionGroup.t).

(** The platform behind the client: how it answers, and the token-creation
    requests it has received, oldest first. *)
Record World := mkWorld {
  CreateAPIToken : cloudflare.APIToken → string + string;
  permission_groups : string → HTTPReply;
  received : list cloudflare.APIToken
}.

(** A call that may talk to the platform and may fail. *)
Definition M (A : Type) : Type := World → result A * World.

Definition ret {A} (v : A) : M A := λ w, (Ok v, w).
Definition fail {A} (e : error) : M A := λ w, (Err e, w).
Definition lift {A} (r : result A) : M A := λ w, (r, w).
Definition bind {A B} (m : M A) (k : A → M B) : M B :=
  λ w, match m w with
       | (Ok v, w') => k v w'
       | (Err e, w') => (Err e, w')
       end.

Notation "x <-- m ;; k" := (bind m (λ x, k))
  (at level 100, m at next level, right associativity, only parsing).

(** [g.api.CreateAPIToken(ctx, token)]: the platform records the request
    and answers with an error or the new token's value. *)
Definition api_CreateAPIToken (token : cloudflare.APIToken) (w : World)
  : (string + string) * World :=
  (CreateAPIToken w token,
   mkWorld (CreateAPIToken w) (permission_groups w) (received w ++ [token])).

(** [Generator]; the client handle [api] is the [World]. *)
Record Generator := mkGenerator {
  apiToken : string;
  accountID : string;
  zoneID : string
}.

Section Engine.

Context `{!strings.Unicode}.

(** ** [ServiceLevels] and [filterPermissions] *)

Fixpoint ServiceLevels_loop (perms : list Permission.t) : list string :=
  match perms with
  | [] => ["edit"]
  | p :: perms' =>
      if strings.Contains (strings.ToLower (Permission.Name p)) "read"
      then ["read"; "edit"]
      else ServiceLevels_loop perms'
  end.

Definition ServiceLevels (svc : Service.t) : list string :=
  ServiceLevels_loop (Service.Permissions svc).

Definition filterPermissions (perms : list Permission.t) (level : string)
  : list Permission.t :=
  if String.eqb level "edit" then perms
  else
    fold_left
      (λ filtered p,
         if strings.Contains (strings.ToLower (Permission.Name p)) "read"
         then filtered ++ [p] else filtered)
      perms [].

(** ** [buildResources] *)

Definition buildResources (g : Generator) (svc : Service.t) (scope : string)
  : result (gmap string string) :=
  let resources : gmap string string := ∅ in
  if String.eqb (strings.ToLower scope) "all" then
    if String.eqb (Service.ResourceScope svc) ResourceScopeZone then
      Ok (<["com.cloudflare.api.account.zone.*" := "*"]> resources)
    else
      if String.eqb (accountID g) "" then
        Err (ErrAccountIDRequired (Service.Name svc))
      else
        Ok (<["com.cloudflare.api.account." +:+ accountID g := "*"]> resources)
  else
    if String.eqb (Service.ResourceScope svc) ResourceScopeZone then
      Ok (<["com.cloudflare.api.account.zone." +:+ scope := "*"]> resources)
    else
      Ok (<["com.cloudflare.api.account." +:+ scope := "*"]> resources).

(** ** [createToken] *)

Definition createToken (g : Generator) (name : string)
    (policies : list cloudflare.APITokenPolicies) : M string :=
  λ w,
    let token := cloudflare.mkToken name policies in
    match api_CreateAPIToken token w with
    | (inl cause, w') => (Err (ErrCreatingToken cause), w')
    | (inr value, w') => (Ok value, w')
    end.

(** ** [GenerateMulti] *)

(** The loop over the requested names: look up, check the level, append. *)
Fixpoint GenerateMulti_lookup (level : string) (services : list string)
    (svcs : list Service.t) : result (list Service.t) :=
  match services with
  | [] => Ok svcs
  | s :: services' =>
      match Services !! strings.ToLower (strings.TrimSpace s) with
      | None => Err (ErrUnknownService s)
      | Some svc =>
          if (length (filterPermissions (Service.Permissions svc) level) =? 0)%nat
          then Err (ErrUnsupportedLevel (Service.Name svc) level
                      (strings.Join (ServiceLevels svc) ", "))
          else GenerateMulti_lookup level services' (svcs ++ [svc])
      end
  end.

(** The loop that splits [svcs] into [zoneSvcs] and [accountSvcs]. *)
Definition GenerateMulti_group (svcs : list Service.t)
  : list Service.t * list Service.t :=
  fold_left
    (λ '(zoneSvcs, accountSvcs) svc,
       if String.eqb (Service.ResourceScope svc) ResourceScopeZone
       then (zoneSvcs ++ [svc], accountSvcs)
       else (zoneSvcs, accountSvcs ++ [svc]))
    svcs ([], []).

(** The nested loop that fills [permGroups] for one group of services. *)
Definition GenerateMulti_permGroups (group : list Service.t) (level : string)
  : list cloudflare.APITokenPermissionGroups :=
  fold_left
    (λ permGroups svc,
       fold_left
         (λ permGroups p,
            permGroups ++ [cloudflare.mkPermissionGroups (Permission.ID p)])
         (filterPermissions (Service.Permissions svc) level) permGroups)
    group [].

(** One [if len(group) > 0 { ... }] block. *)
Definition GenerateMulti_policy (g : Generator) (group : list Service.t)
    (scope level : string) (policies : list cloudflare.APITokenPolicies)
  : result (list cloudflare.APITokenPolicies) :=
  match group with
  | [] => Ok policies
  | svc0 :: _ =>
      match buildResources g svc0 scope with
      | Err e => Err e
      | Ok resources =>
          Ok (policies ++
              [cloudflare.mkPolicies "allow" resources
                 (GenerateMulti_permGroups group level)])
      end
  end.

Definition GenerateMulti (g : Generator) (services : list string)
    (scope level : string) : M string :=
  let level := strings.ToLower level in
  if negb (String.eqb level "read") && negb (String.eqb level "edit") then
    fail (ErrInvalidLevel level)
  else
    svcs <-- lift (GenerateMulti_lookup level services []) ;;
    let '(zoneSvcs, accountSvcs) := GenerateMulti_group svcs in
    policies <-- lift (GenerateMulti_policy g zoneSvcs scope level []) ;;
    policies <-- lift (GenerateMulti_policy g accountSvcs scope level policies) ;;
    let names := fold_left (λ names svc, names ++ [Service.Name svc]) svcs [] in
    let tokenName := strings.Join names "-" +:+ "-" +:+ scope +:+ "-" +:+ level in
    createToken g tokenName policies.

(** [Generate] delegates. *)
Definition Generate (g : Generator) (service scope : string) : M string :=
  GenerateMulti g [service] scope "edit".

(** ** [GodMode] *)

(** The GET request carries the header [Authorization: Bearer <apiToken>];
    [http.NewRequest] cannot fail on the constant method and URL. *)
Definition fetchPermissionGroups (g : Generator) : M (list permissionGroup.t) :=
  λ w,
    match permission_groups w ("Bearer " +:+ apiToken g) with
    | DoFailed cause => (Err (ErrFetchingPermissionGroups cause), w)
    | DecodeFailed cause => (Err (ErrDecodingPermissionGroups cause), w)
    | Decoded success statusCode groups =>
        if success then (Ok groups, w)
        else (Err (ErrAPISuccessFalse statusCode), w)
    end.

Fixpoint deriveScope (scopes : list string) : string :=
  match scopes with
  | [] => ""
  | s :: scopes' =>
      if strings.Contains s "zone" then "zone"
      else if strings.Contains s "account" then "account"
      else deriveScope scopes'
  end.

(** The loop over the fetched groups, filling [zonePerms] and
    [accountPerms]. *)
Definition GodMode_collect (perms : list permissionGroup.t)
  : list cloudflare.APITokenPermissionGroups *
    list cloudflare.APITokenPermissionGroups :=
  fold_left
    (λ '(zonePerms, accountPerms) p,
       let nameLower := strings.ToLower (permissionGroup.Name p) in
       if strings.Contains nameLower "api token" then (zonePerms, accountPerms)
       else
         let scope := deriveScope (permissionGroup.Scopes p) in
         if String.eqb scope "zone" then
           (zonePerms ++ [cloudflare.mkPermissionGroups (permissionGroup.ID p)],
            accountPerms)
         else if String.eqb scope "account" then
           (zonePerms,
            accountPerms ++ [cloudflare.mkPermissionGroups (permissionGroup.ID p)])
         else (zonePerms, accountPerms))
    perms ([], []).

(** The two [if len(...) > 0] blocks that assemble [policies]. *)
Definition GodMode_policies (g : Generator)
    (zonePerms accountPerms : list cloudflare.APITokenPermissionGroups)
  : list cloudflare.APITokenPolicies :=
  let policies := [] in
  let policies :=
    if (0 <? length zonePerms)%nat then
      policies ++
      [cloudflare.mkPolicies "allow"
         {["com.cloudflare.api.account.zone.*" := "*"]} zonePerms]
    else policies in
  let policies :=
    if (0 <? length accountPerms)%nat then
      policies ++
      [cloudflare.mkPolicies "allow"
         {["com.cloudflare.api.account." +:+ accountID g := "*"]} accountPerms]
    else policies in
  policies.

Definition GodMode (g : Generator) : M string :=
  if String.eqb (accountID g) "" then fail ErrGodModeAccountIDRequired
  else
    perms <-- fetchPermissionGroups g ;;
    let '(zonePerms, accountPerms) := GodMode_collect perms in
    createToken g "godmode" (GodMode_policies g zonePerms accountPerms).

End Engine.

(** ** The earlier, stand-alone [Generate] of [cftoken.go] *)

Module Legacy.

(** That version's [Generator] has no [apiToken] field. *)
Record Generator := mkGenerator {
  accountID : string;
  zoneID : string
}.

Section Engine.

Context `{!strings.Unicode}.

Definition buildResources (g : Generator) (svc : Service.t) (scope : string)
  : result (gmap string string) :=
  let resources : gmap string string := ∅ in
  if String.eqb (strings.ToLower scope) "all" then
    if String.eqb (Service.ResourceScope svc) ResourceScopeZone then
      Ok (<["com.cloudflare.api.account.zone.*" := "*"]> resources)
    else
      if String.eqb (accountID g) "" then
        Err (ErrAccountIDRequired (Service.Name svc))
      else
        Ok (<["com.cloudflare.api.account." +:+ accountID g := "*"]> resources)
  else
    if String.eqb (Service.ResourceScope svc) ResourceScopeZone then
      Ok (<["com.cloudflare.api.account.zone." +:+ scope := "*"]> resources)
    else
      Ok (<["com.cloudflare.api.account." +:+ scope := "*"]> resources).

Definition Generate (g : Generator) (service scope : string) : M string :=
  match Services !! strings.ToLower service with
  | None => fail (ErrUnknownService service)
  | Some svc =>
      resources <-- lift (buildResources g svc scope) ;;
      let permGroups :=
        fold_left
          (λ permGroups p,
             permGroups ++ [cloudflare.mkPermissionGroups (Permission.ID p)])
          (Service.Permissions svc) [] in
      let token :=
        cloudflare.mkToken (Service.Name svc +:+ "-" +:+ scope)
          [cloudflare.mkPolicies "allow" resources permGroups] in
      λ w,
        match api_CreateAPIToken token w with
        | (inl cause, w') => (Err (ErrCreatingToken cause), w')
        | (inr value, w') => (Ok value, w')
        end
  end.

End Engine.

End Legacy.

(** ** The service methods and [ListServices] *)

Section Methods.

Context `{!strings.Unicode}.

(** The convenience methods; each delegates to [Generate]. *)
Definition DNS (g : Generator) (scope : string) : M string := Generate g "dns" scope.
Definition Workers (g : Generator) (scope : string) : M string := Generate g "workers" scope.
Definition R2 (g : Generator) (scope : string) : M string := Generate g "r2" scope.
Definition Pages (g : Generator) (scope : string) : M string := Generate g "pages" scope.
Definition KV (g : Generator) (scope : string) : M string := Generate g "kv" scope.
Definition Cache (g : Generator) (scope : string) : M string := Generate g "cache" scope.
Definition Firewall (g : Generator) (scope : string) : M string := Generate g "firewall" scope.
Definition SSL (g : Generator) (scope : string) : M string := Generate g "ssl" scope.
Definition WAF (g : Generator) (scope : string) : M string := Generate g "waf" scope.
Definition Stream (g : Generator) (scope : string) : M string := Generate g "stream" scope.
Definition AI (g : Generator) (scope : string) : M string := Generate g "ai" scope.
Definition D1 (g : Generator) (scope : string) : M string := Generate g "d1" scope.
Definition Queues (g : Generator) (scope : string) : M string := Generate g "queues" scope.
Definition Images (g : Generator) (scope : string) : M string := Generate g "images" scope.
Definition Tunnels (g : Generator) (scope : string) : M string := Generate g "tunnels" scope.
Definition Zone (g : Generator) (scope : string) : M string := Generate g "zone" scope.
Definition LoadBalancer (g : Generator) (scope : string) : M string :=
  Generate g "loadbalancer" scope.
Definition PageRules (g : Generator) (scope : string) : M string :=
  Generate g "pagerules" scope.

(** All of them, in the order of the file. *)
Definition service_methods : list (Generator → string → M string) :=
  [ DNS; Workers; R2; Pages; KV; Cache; Firewall; SSL; WAF; Stream; AI; D1;
    Queues; Images; Tunnels; Zone; LoadBalancer; PageRules ].

End Methods.

(** The catalog key each method passes on, in the same order. *)
Definition method_keys : list string :=
  [ "dns"; "workers"; "r2"; "pages"; "kv"; "cache"; "firewall"; "ssl"; "waf";
    "stream"; "ai"; "d1"; "queues"; "images"; "tunnels"; "zone";
    "loadbalancer"; "pagerules" ].

(** [ListServices]: the values of [Services], appended in the order the
    [range] over the map yields them (unspecified in Go), then sorted by
    [sort.Slice] (which algorithm is the library's business) on [Name]. *)
Definition ListServices_less (a b : Service.t) : bool :=
  String.ltb (Service.Name a) (Service.Name b).

Definition ListServices (range_Services : list Service.t)
    (sort_Slice : (Service.t → Service.t → bool) → list Service.t → list Service.t)
  : list Service.t :=
  let result := fold_left (λ result svc, result ++ [svc]) range_Services [] in
  sort_Slice ListServices_less result.

(** A sort to run [ListServices] with: merge sort on "not after". *)
Definition merge_sort_Slice (less : Service.t → Service.t → bool)
    (l : list Service.t) : list Service.t :=
  @merge_sort _ (λ a b, less b a = false) (λ a b, bool_eq_dec (less b a) false) l.

(** The position of a name among the catalog's names in ascending order. *)
Definition sorted_names : list string :=
  [ "ai"; "cache"; "d1"; "dns"; "firewall"; "images"; "kv"; "loadbalancer";
    "pagerules"; "pages"; "queues"; "r2"; "ssl"; "stream"; "tunnels"; "waf";
    "workers"; "zone" ].

Fixpoint name_rank_in (names : list string) (name : string) : nat :=
  match names with
  | [] => 0
  | n :: names' => if String.eqb n name then 0 else S (name_rank_in names' name)
  end.

Definition name_rank (svc : Service.t) : nat :=
  name_rank_in sorted_names (Service.Name svc).

(** The catalog's services under those names. *)
Definition sorted_catalog : list Service.t :=
  omap (λ name, Services !! name) sorted_names.

#[global] Instance Permission_eq_dec : EqDecision Permission.t.
Proof. solve_decision. Defined.

#[global] Instance Service_eq_dec : EqDecision Service.t.
Proof. solve_decision. Defined.

(** ** [New] and the command line of [cmd/cloudflaretokengenerator]

    The command-line program runs on a host: standard input and output, the
    configuration file, and the remote platform, whose answers are part of
    the host.  [LoadConfig] and [SaveConfig] touch the file system and YAML
    and are taken by their outcome; so are the calls of the client library
    ([NewWithAPIToken], [VerifyAPIToken], [Accounts], [ListZones]). *)

(** [Config]. *)
Record Config := mkConfig {
  APIToken : string;
  AccountID : string;
  ZoneID : string
}.

(** [cloudflare.Account] and [cloudflare.Zone], by the fields that are read. *)
Module cfAccount.
Record t := mk { ID : string; Name : string }.
End cfAccount.

Module cfZone.
Record t := mk { ID : string; Name : string }.
End cfZone.

(** The errors the commands return; the library's errors pass through. *)
Inductive cli_error :=
| ErrAPITokenRequired
| ErrInvalidToken (cause : string)
| ErrTokenVerificationFailed (cause : string)
| ErrAccountIDIsRequired
| ErrSavingConfig (cause : string)
| ErrGenerateUsage
| ErrLoadConfig (cause : string)
| ErrCreatingClient (cause : string)
| ErrLibrary (e : error)
| ErrListingZones (cause : string).

(** What is written: text to standard output, text to standard error, and
    the line [Error: %v] for an error. *)
Inductive output :=
| Stdout (text : string)
| Stderr (text : string)
| StderrError (e : cli_error).

Record Host := mkHost {
  intSize : Z;
  stdin : string;
  printed : list output;
  LoadConfig_reply : string + Config;
  SaveConfig_reply : Config → option string;
  saved : list Config;
  NewWithAPIToken_reply : string → option string;
  VerifyAPIToken_reply : string → option string;
  Accounts_reply : string → string + list cfAccount.t;
  ListZones_reply : string → string + list cfZone.t;
  platform : World
}.

Definition set_stdin (rest : string) (h : Host) : Host :=
  mkHost (intSize h) rest (printed h) (LoadConfig_reply h) (SaveConfig_reply h)
    (saved h) (NewWithAPIToken_reply h) (VerifyAPIToken_reply h)
    (Accounts_reply h) (ListZones_reply h) (platform h).

Definition print (o : output) (h : Host) : Host :=
  mkHost (intSize h) (stdin h) (printed h ++ [o]) (LoadConfig_reply h)
    (SaveConfig_reply h) (saved h) (NewWithAPIToken_reply h)
    (VerifyAPIToken_reply h) (Accounts_reply h) (ListZones_reply h) (platform h).

Definition set_platform (w : World) (h : Host) : Host :=
  mkHost (intSize h) (stdin h) (printed h) (LoadConfig_reply h)
    (SaveConfig_reply h) (saved h) (NewWithAPIToken_reply h)
    (VerifyAPIToken_reply h) (Accounts_reply h) (ListZones_reply h) w.

(** [SaveConfig]: the file is written, or an error comes back. *)
Definition SaveConfig (cfg : Config) (h : Host) : option string * Host :=
  match SaveConfig_reply h cfg with
  | Some cause => (Some cause, h)
  | None =>
      (None,
       mkHost (intSize h) (stdin h) (printed h) (LoadConfig_reply h)
         (SaveConfig_reply h) (saved h ++ [cfg]) (NewWithAPIToken_reply h)
         (VerifyAPIToken_reply h) (Accounts_reply h) (ListZones_reply h)
         (platform h))
  end.

(** [New]: the client is created from the token, the identifiers are
    copied. *)
Definition New (cfg : Config) (h : Host) : string + Generator :=
  match NewWithAPIToken_reply h (APIToken cfg) with
  | Some cause => inl cause
  | None => inr (mkGenerator (APIToken cfg) (AccountID cfg) (ZoneID cfg))
  end.

(** The line feed. *)
Definition nl : string := String (ascii_of_nat 10) EmptyString.

(** [fmt]'s [%d] of a number that is not negative. *)
Definition format_d (n : nat) : string :=
  DecimalString.NilZero.string_of_uint (Nat.to_uint n).

(** [strconv.Atoi]: an optional sign, then digits only and at least one;
    the value has to fit [int].  Any failure is an error. *)
Definition is_digit (c : ascii) : bool :=
  let n := nat_of_ascii c in ((48 <=? n) && (n <=? 57))%nat.

Fixpoint digits_value (s : string) (acc : Z) : option Z :=
  match s with
  | EmptyString => Some acc
  | String c s' =>
      if is_digit c
      then digits_value s' (acc * 10 + (Z.of_nat (nat_of_ascii c) - 48))%Z
      else None
  end.

Definition Atoi (bits : Z) (s : string) : option Z :=
  match s with
  | EmptyString => None
  | String c rest =>
      let negative := Ascii.eqb c "-" in
      let body := if negative || Ascii.eqb c "+" then rest else s in
      match body with
      | EmptyString => None
      | _ =>
          match digits_value body 0 with
          | None => None
          | Some v =>
              let n := if negative then (- v)%Z else v in
              if ((- 2 ^ (bits - 1) <=? n) && (n <=? 2 ^ (bits - 1) - 1))%Z
              then Some n else None
          end
      end
  end.

(** [bufio.Reader.ReadString('\n')]: the bytes up to and including the first
    line feed, or all that is left; and what remains. *)
Fixpoint ReadString_nl (s : string) : string * string :=
  match s with
  | EmptyString => (EmptyString, EmptyString)
  | String c s' =>
      if Ascii.eqb c (ascii_of_nat 10) then (String c EmptyString, s')
      else let '(line, rest) := ReadString_nl s' in (String c line, rest)
  end.

(** The block [if n, err := strconv.Atoi(input); err == nil && n >= 1 &&
    n <= len(xs) { id = xs[n-1].ID } else { id = input }], on the
    identifiers of the listed entries. *)
Definition select_entry (bits : Z) (ids : list string) (input : string) : string :=
  match Atoi bits input with
  | Some n =>
      if ((1 <=? n) && (n <=? Z.of_nat (length ids)))%Z
      then nth (Z.to_nat (n - 1)) ids input
      else input
  | None => input
  end.

(** The text of [printUsage], line by line. *)
Definition usage_lines : list string :=
  [ "Usage: cloudflaretokengenerator <command> [args]";
    "";
    "Commands:";
    "  init                          Configure API token, account, and zone";
    "  generate <service> <scope>    Generate a scoped API token";
    "  list-services                 List available services";
    "  list-zones                    List zones accessible by your token";
    "  help                          Show this help";
    "";
    "Scope:";
    "  all                           All resources (all zones or configured account)";
    "  <zone-id>                     Specific zone ID (zone-scoped services)";
    "  <account-id>                  Specific account ID (account-scoped services)";
    "";
    "Examples:";
    "  cloudflaretokengenerator init";
    "  cloudflaretokengenerator generate dns all";
    "  cloudflaretokengenerator generate workers all";
    "  cloudflaretokengenerator generate dns 023e105f4ecef8ad9ca31a8372d0c353" ].

Definition printUsage (h : Host) : Host :=
  print (Stdout (String.concat nl usage_lines +:+ nl)) h.

Section CommandLine.

Context `{!strings.Unicode}.

(** [utf8.RuneCountInString], by which [fmt] pads; the order of the [range]
    over [Services]; and [sort.Slice]. *)
Variable RuneCountInString : string → nat.
Variable range_Services : list Service.t.
Variable sort_Slice :
  (Service.t → Service.t → bool) → list Service.t → list Service.t.

(** [%-Ns]: spaces are added on the right up to the width. *)
Definition pad_right (width : nat) (s : string) : string :=
  s +:+ String.concat "" (replicate (width - RuneCountInString s) " ").

Definition readLine (h : Host) : string * Host :=
  let '(line, rest) := ReadString_nl (stdin h) in
  (strings.TrimSpace line, set_stdin rest h).

(** The loop that prints the numbered entries, [i+1] first. *)
Fixpoint print_entries (i : nat) (entries : list (string * string)) (h : Host)
  : Host :=
  match entries with
  | [] => h
  | (name, id) :: entries' =>
      print_entries (S i) entries'
        (print (Stdout ("  [" +:+ format_d (i + 1) +:+ "] " +:+ name +:+ " ("
                        +:+ id +:+ ")" +:+ nl)) h)
  end.

(** The block under [// Try to discover accounts]: the account identifier
    that is chosen or typed. *)
Definition discover_account (apiToken : string) (h : Host) : string * Host :=
  match Accounts_reply h apiToken with
  | inr ((_ :: _) as accounts) =>
      let h := print (Stdout (nl +:+ "Available accounts:" +:+ nl)) h in
      let h :=
        print_entries 0
          (List.map (λ a, (cfAccount.Name a, cfAccount.ID a)) accounts) h in
      let h :=
        print (Stdout (nl +:+ "Select account (number) or enter Account ID: ")) h in
      let '(input, h) := readLine h in
      (select_entry (intSize h) (List.map cfAccount.ID accounts) input, h)
  | _ =>
      let h := print (Stdout (nl +:+ "Enter your Account ID: ")) h in
      readLine h
  end.

(** The block under [// Try to discover zones]; an empty line skips. *)
Definition discover_zone (apiToken : string) (h : Host) : string * Host :=
  match ListZones_reply h apiToken with
  | inr ((_ :: _) as zones) =>
      let h := print (Stdout (nl +:+ "Available zones:" +:+ nl)) h in
      let h :=
        print_entries 0 (List.map (λ z, (cfZone.Name z, cfZone.ID z)) zones) h in
      let h :=
        print (Stdout (nl +:+ "Select default zone (number), enter Zone ID, or press Enter to skip: "))
          h in
      let '(input, h) := readLine h in
      if String.eqb input "" then ("", h)
      else (select_entry (intSize h) (List.map cfZone.ID zones) input, h)
  | _ =>
      let h :=
        print (Stdout (nl +:+ "Enter default Zone ID (or press Enter to skip): ")) h in
      readLine h
  end.

Definition runInit (h : Host) : option cli_error * Host :=
  let h := print (Stdout "Enter your Cloudflare API Token: ") h in
  let '(apiToken, h) := readLine h in
  if String.eqb apiToken "" then (Some ErrAPITokenRequired, h)
  else
    match NewWithAPIToken_reply h apiToken with
    | Some cause => (Some (ErrInvalidToken cause), h)
    | None =>
        match VerifyAPIToken_reply h apiToken with
        | Some cause => (Some (ErrTokenVerificationFailed cause), h)
        | None =>
            let h := print (Stdout ("✓ Token verified" +:+ nl)) h in
            let '(accountID, h) := discover_account apiToken h in
            if String.eqb accountID "" then (Some ErrAccountIDIsRequired, h)
            else
              let '(zoneID, h) := discover_zone apiToken h in
              let cfg := mkConfig apiToken accountID zoneID in
              match SaveConfig cfg h with
              | (Some cause, h) => (Some (ErrSavingConfig cause), h)
              | (None, h) =>
                  (None,
                   print (Stdout (nl +:+ "✓ Config saved to ~/.goGenerateCFToken/config.yaml"
                                  +:+ nl)) h)
              end
        end
    end.

Definition runGenerate (args : list string) (h : Host) : option cli_error * Host :=
  if (length args <? 4)%nat then (Some ErrGenerateUsage, h)
  else
    let service := nth 2 args "" in
    let scope := nth 3 args "" in
    match LoadConfig_reply h with
    | inl cause => (Some (ErrLoadConfig cause), h)
    | inr cfg =>
        match New cfg h with
        | inl cause => (Some (ErrCreatingClient cause), h)
        | inr gen =>
            match Generate gen service scope (platform h) with
            | (Err e, w) => (Some (ErrLibrary e), set_platform w h)
            | (Ok token, w) => (None, print (Stdout (token +:+ nl)) (set_platform w h))
            end
        end
    end.

Definition runListServices (h : Host) : Host :=
  let h := print (Stdout ("Available services:" +:+ nl +:+ nl)) h in
  let row a b c :=
    Stdout ("  " +:+ pad_right 16 a +:+ " " +:+ pad_right 10 b +:+ " " +:+ c +:+ nl) in
  let h := print (row "SERVICE" "SCOPE" "DESCRIPTION") h in
  let h := print (row "-------" "-----" "-----------") h in
  fold_left
    (λ h svc,
       print (row (Service.Name svc) (Service.ResourceScope svc)
                (Service.Description svc)) h)
    (ListServices range_Services sort_Slice) h.

Definition runListZones (h : Host) : option cli_error * Host :=
  match LoadConfig_reply h with
  | inl cause => (Some (ErrLoadConfig cause), h)
  | inr cfg =>
      match New cfg h with
      | inl cause => (Some (ErrCreatingClient cause), h)
      | inr gen =>
          match ListZones_reply h (apiToken gen) with
          | inl cause => (Some (ErrListingZones cause), h)
          | inr [] =>
              (None,
               print (Stdout ("No zones found (token may lack Zone Read permission)"
                              +:+ nl)) h)
          | inr zones =>
              let row a b := Stdout (pad_right 40 a +:+ " " +:+ b +:+ nl) in
              let h := print (row "ZONE ID" "NAME") h in
              let h := print (row "-------" "----") h in
              (None,
               fold_left (λ h z, print (row (cfZone.ID z) (cfZone.Name z)) h) zones h)
          end
      end
  end.

(** [main] on [os.Args]; the result is the exit status. *)
Definition report (r : option cli_error * Host) : Z * Host :=
  match r with
  | (Some e, h) => (1%Z, print (StderrError e) h)
  | (None, h) => (0%Z, h)
  end.

Definition main (args : list string) (h : Host) : Z * Host :=
  if (length args <? 2)%nat then (1%Z, printUsage h)
  else
    let command := nth 1 args "" in
    if String.eqb command "init" then report (runInit h)
    else if String.eqb command "generate" then report (runGenerate args h)
    else if String.eqb command "list-services" then (0%Z, runListServices h)
    else if String.eqb command "list-zones" then report (runListZones h)
    else if String.eqb command "help" || String.eqb command "--help"
            || String.eqb command "-h" then (0%Z, printUsage h)
    else
      (1%Z,
       printUsage (print (Stderr ("Unknown command: " +:+ command +:+ nl +:+ nl)) h)).

End CommandLine.

(** Between two states of the host only input was consumed and output
    written: nothing was saved, the platform was not contacted, and the
    answers are the same. *)
Definition only_io (h h' : Host) : Prop :=
  intSize h' = intSize h
  ∧ saved h' = saved h
  ∧ platform h' = platform h
  ∧ LoadConfig_reply h' = LoadConfig_reply h
  ∧ SaveConfig_reply h' = SaveConfig_reply h
  ∧ NewWithAPIToken_reply h' = NewWithAPIToken_reply h
  ∧ VerifyAPIToken_reply h' = VerifyAPIToken_reply h
  ∧ Accounts_reply h' = Accounts_reply h
  ∧ ListZones_reply h' = ListZones_reply h.

(** ** Vocabulary of the specification *)

(** A key as the map literal writes it: ASCII, lower case, no surrounding
    space. *)
Definition plain_key (k : string) : bool :=
  strings.is_ascii k && String.eqb (strings.ascii_ToLower k) k
  && String.eqb (strings.ascii_TrimSpace k) k.

Definition catalog_entry_ok (e : string * Service.t) : bool :=
  plain_key e.1
  && String.eqb (Service.Name e.2) e.1
  && (String.eqb (Service.ResourceScope e.2) ResourceScopeZone
      || String.eqb (Service.ResourceScope e.2) ResourceScopeAccount)
  && (0 <? length (Service.Permissions e.2))%nat.

Section Vocabulary.

Context `{!strings.Unicode}.

(** The key a requested name is looked up under. *)
Definition lookup_key (s : string) : string :=
  strings.ToLower (strings.TrimSpace s).

(** A level string the validation accepts. *)
Definition valid_level (level : string) : Prop :=
  strings.ToLower level = "read" ∨ strings.ToLower level = "edit".

(** A display name that case-insensitively contains "read". *)
Definition mentions_read (p : Permission.t) : bool :=
  strings.Contains (strings.ToLower (Permission.Name p)) "read".

(** A requested name that is in the catalog and has a permission at the
    (normalised) level. *)
Definition resolves (level : string) (s : string) (svc : Service.t) : Prop :=
  Services !! lookup_key s = Some svc
  ∧ filterPermissions (Service.Permissions svc) level ≠ [].

Definition is_zone (svc : Service.t) : bool :=
  String.eqb (Service.ResourceScope svc) ResourceScopeZone.

Definition is_account (svc : Service.t) : bool :=
  String.eqb (Service.ResourceScope svc) ResourceScopeAccount.

(** The level-filtered permission identifiers of a run of services: service
    after service, each list in catalog order. *)
Definition permission_ids (level : string) (svcs : list Service.t)
  : list cloudflare.APITokenPermissionGroups :=
  List.concat
    (List.map
       (λ svc,
          List.map (λ p, cloudflare.mkPermissionGroups (Permission.ID p))
            (filterPermissions (Service.Permissions svc) level))
       svcs).

(** A fetched group the api-token rule excludes. *)
Definition manages_tokens (p : permissionGroup.t) : bool :=
  strings.Contains (strings.ToLower (permissionGroup.Name p)) "api token".

(** A hint that indicates a class. *)
Definition class_hint (s : string) : bool :=
  strings.Contains s "zone" || strings.Contains s "account".

(** The fetched groups that end up in the bucket of class [scope]. *)
Definition bucket (scope : string) (perms : list permissionGroup.t)
  : list permissionGroup.t :=
  List.filter
    (λ p, negb (manages_tokens p)
          && String.eqb (deriveScope (permissionGroup.Scopes p)) scope)
    perms.

End Vocabulary.

(** The requests the platform received during a call that took it from [w]
    to [w'], and their policies. *)
Definition emitted (w w' : World) : list cloudflare.APIToken :=
  drop (length (received w)) (received w').

Definition emitted_policies (w w' : World) : list cloudflare.APITokenPolicies :=
  List.concat (List.map cloudflare.Policies (emitted w w')).

(** The call got past local validation: it returned a token value or the
    platform's refusal. *)
Definition submitted (r : result string) : bool :=
  match r with
  | Ok _ => true
  | Err (ErrCreatingToken _) => true
  | Err _ => false
  end.

(** All identifiers a list of policies grants. *)
Definition granted (policies : list cloudflare.APITokenPolicies) : list string :=
  List.concat
    (List.map
       (λ policy, List.map cloudflare.ID (cloudflare.PermissionGroups policy))
       policies).

(** ** Running the engine *)

(** A platform that accepts every token and has received nothing yet. *)
Definition idle (groups : list permissionGroup.t) : World :=
  mkWorld (λ token, inr ("value-of-" +:+ cloudflare.Name token))
          (λ _, Decoded true 200 groups) [].

(** A generator with an account, one without, and the earlier version's. *)
Definition demo_generator : Generator := mkGenerator "boot" "acc1" "".
Definition bare_generator : Generator := mkGenerator "boot" "" "".
Definition demo_legacy : Legacy.Generator := Legacy.mkGenerator "acc1" "".

(** A fetched list: a zone group, a token-management group, an account
    group and a group with user scope only. *)
Definition demo_groups : list permissionGroup.t :=
  [ permissionGroup.mk "4755a26eedb94da69e1066d98aa820be" "DNS Write"
      ["com.cloudflare.api.account.zone"];
    permissionGroup.mk "5bc3f8b21c554832afc660159ab75fa4" "Account API Tokens Write"
      ["com.cloudflare.api.account"];
    permissionGroup.mk "e086da7e2179491d91ee5f35b3ca210a" "Workers Scripts Write"
      ["com.cloudflare.api.account"];
    permissionGroup.mk "3518d0f75557482e952c6762d3e64903" "Memberships Read"
      ["com.cloudflare.api.user"] ].

(** The line [  [%d] %s (%s)] of a listed entry. *)
Definition entry_line (n : nat) (name id : string) : output :=
  Stdout ("  [" +:+ format_d n +:+ "] " +:+ name +:+ " (" +:+ id +:+ ")" +:+ nl).

(** Two fetched lists in which two groups carry one identifier: a
    token-management group beside a zone group, and a group with user scope
    only beside a zone group. *)
Definition token_twin_groups : list permissionGroup.t :=
  [ permissionGroup.mk "5bc3f8b21c554832afc660159ab75fa4" "API Tokens Write"
      ["com.cloudflare.api.user"];
    permissionGroup.mk "5bc3f8b21c554832afc660159ab75fa4" "DNS Write"
      ["com.cloudflare.api.account.zone"] ].

Definition user_twin_groups : list permissionGroup.t :=
  [ permissionGroup.mk "3518d0f75557482e952c6762d3e64903" "Memberships Read"
      ["com.cloudflare.api.user"];
    permissionGroup.mk "3518d0f75557482e952c6762d3e64903" "DNS Write"
      ["com.cloudflare.api.account.zone"] ].

(** ** Running the command line *)

(** A host with a 64-bit [int] on which three lines are typed (a token, the
    number 1 and an empty line), a configuration is stored, one account and
    one zone are visible, and every call of the client library succeeds. *)
Definition demo_host : Host :=
  mkHost 64 ("boot" +:+ nl +:+ "1" +:+ nl +:+ nl) []
    (inr (mkConfig "boot" "acc1" ""))
    (λ _, None) []
    (λ _, None) (λ _, None)
    (λ _, inr [cfAccount.mk "acc1" "Main"])
    (λ _, inr [cfZone.mk "023e105f4ecef8ad9ca31a8372d0c353" "example.com"])
    (idle demo_groups).

(** The program under a byte-counting width, the catalog's own order of
    iteration and merge sort. *)
Definition demo_main (args : list string) (h : Host) : Z * Host :=
  main String.length (map_to_list Services).*2 merge_sort_Slice args h.

(** A call that leaves the platform's answers alone and either fails
    locally without sending anything or sends exactly one request. *)
Definition sends_at_most_once (m : M string) : Prop :=
  ∀ w r w',
    m w = (r, w') →
    CreateAPIToken w' = CreateAPIToken w
    ∧ permission_groups w' = permission_groups w
    ∧ ((submitted r = false ∧ received w' = received w)
       ∨ (submitted r = true ∧ ∃ token, received w' = received w ++ [token])).

(** ** Loops that append are filters and maps *)

Section Loops.

Context {A B : Type}.

Lemma fold_left_snoc_map (f : A → B) (l : list A) (acc : list B) :
  fold_left (λ acc x, acc ++ [f x]) l acc = acc ++ List.map f l.
Proof.
  revert acc. induction l as [|x l IH]; intros acc; simpl.
  - by rewrite app_nil_r.
  - by rewrite IH, <- app_assoc.
Qed.

Lemma fold_left_snoc_filter (f : A → bool) (l : list A) (acc : list A) :
  fold_left (λ acc x, if f x then acc ++ [x] else acc) l acc
  = acc ++ List.filter f l.
Proof.
  revert acc. induction l as [|x l IH]; intros acc; simpl.
  - by rewrite app_nil_r.
  - rewrite IH. destruct (f x); [by rewrite <- app_assoc | done].
Qed.

End Loops.

(** ** Facts about the catalog *)

Lemma Services_entries_ok : forallb catalog_entry_ok Services_entries = true.
Proof. vm_compute. reflexivity. Qed.

Lemma Services_lookup_entry k svc :
  Services !! k = Some svc → catalog_entry_ok (k, svc) = true.
Proof.
  intros Hk. apply elem_of_list_to_map_2 in Hk.
  apply list_elem_of_In in Hk.
  pose proof Services_entries_ok as Hall.
  rewrite forallb_forall in Hall. by apply Hall.
Qed.

Lemma Services_entry_facts k svc :
  Services !! k = Some svc →
  plain_key k = true ∧ Service.Name svc = k
  ∧ (Service.ResourceScope svc = ResourceScopeZone
     ∨ Service.ResourceScope svc = ResourceScopeAccount)
  ∧ Service.Permissions svc ≠ [].
Proof.
  intros Hk%Services_lookup_entry. unfold catalog_entry_ok in Hk. simpl in Hk.
  apply andb_prop in Hk as [Hk Hperms].
  apply andb_prop in Hk as [Hk Hscope].
  apply andb_prop in Hk as [Hkey Hname].
  repeat split; [done | by apply String.eqb_eq | |].
  - apply orb_prop in Hscope as [Hs|Hs]; apply String.eqb_eq in Hs; auto.
  - destruct (Service.Permissions svc); [discriminate | done].
Qed.

(** From here on the catalog is used through the facts above and by
    evaluation only. *)
#[global] Opaque Services.

(** ** Facts about the loops of the engine *)

Section EngineFacts.

Context `{!strings.Unicode}.

Lemma filterPermissions_edit perms : filterPermissions perms "edit" = perms.
Proof. reflexivity. Qed.

Lemma filterPermissions_other perms level :
  level ≠ "edit" →
  filterPermissions perms level = List.filter mentions_read perms.
Proof.
  intros Hne. unfold filterPermissions.
  destruct (String.eqb_spec level "edit") as [->|_]; [done|].
  apply (fold_left_snoc_filter mentions_read perms []).
Qed.

Lemma GenerateMulti_group_filter svcs :
  GenerateMulti_group svcs
  = (List.filter is_zone svcs, List.filter (λ svc, negb (is_zone svc)) svcs).
Proof.
  unfold GenerateMulti_group.
  enough (∀ z a,
    fold_left
      (λ '(zoneSvcs, accountSvcs) svc,
         if String.eqb (Service.ResourceScope svc) ResourceScopeZone
         then (zoneSvcs ++ [svc], accountSvcs)
         else (zoneSvcs, accountSvcs ++ [svc]))
      svcs (z, a)
    = (z ++ List.filter is_zone svcs,
       a ++ List.filter (λ svc, negb (is_zone svc)) svcs)) as Hgen
    by apply (Hgen [] []).
  induction svcs as [|svc svcs IH]; intros z a; simpl.
  - by rewrite !app_nil_r.
  - destruct (is_zone svc) eqn:Hz; unfold is_zone in Hz; rewrite Hz; simpl;
      rewrite IH, <- app_assoc; reflexivity.
Qed.

Lemma GenerateMulti_permGroups_ids group level :
  GenerateMulti_permGroups group level = permission_ids level group.
Proof.
  unfold GenerateMulti_permGroups, permission_ids.
  enough (∀ acc,
    fold_left
      (λ permGroups svc,
         fold_left
           (λ permGroups p,
              permGroups ++ [cloudflare.mkPermissionGroups (Permission.ID p)])
           (filterPermissions (Service.Permissions svc) level) permGroups)
      group acc
    = acc ++
      List.concat
        (List.map
           (λ svc,
              List.map (λ p, cloudflare.mkPermissionGroups (Permission.ID p))
                (filterPermissions (Service.Permissions svc) level))
           group)) as Hgen by apply (Hgen []).
  induction group as [|svc group IH]; intros acc; simpl.
  - by rewrite app_nil_r.
  - rewrite IH, fold_left_snoc_map, <- app_assoc. done.
Qed.

(** The lookup loop, one requested name at a time. *)
Lemma GenerateMulti_lookup_resolved level pre found rest acc :
  Forall2 (resolves level) pre found →
  GenerateMulti_lookup level (pre ++ rest) acc
  = GenerateMulti_lookup level rest (acc ++ found).
Proof.
  intros Hpre. revert acc.
  induction Hpre as [|s svc pre found [Hs Hperms] _ IH]; intros acc; simpl.
  - by rewrite app_nil_r.
  - unfold lookup_key in Hs. rewrite Hs.
    destruct (filterPermissions (Service.Permissions svc) level) eqn:Hf; [done|].
    simpl. rewrite IH, <- app_assoc. done.
Qed.

Lemma GenerateMulti_lookup_Ok level services acc svcs :
  GenerateMulti_lookup level services acc = Ok svcs →
  ∃ found, svcs = acc ++ found ∧ Forall2 (resolves level) services found.
Proof.
  revert acc. induction services as [|s services IH]; intros acc; simpl.
  - intros [= <-]. exists []. by rewrite app_nil_r.
  - destruct (Services !! _) as [svc|] eqn:Hs; [|done].
    destruct (filterPermissions (Service.Permissions svc) level) eqn:Hf; [done|].
    simpl. intros (found & -> & Hall)%IH.
    exists (svc :: found). rewrite <- app_assoc. split; [done|].
    constructor; [|done]. split; [done|]. by rewrite Hf.
Qed.

(** Past the level check, [GenerateMulti] is the lookup, the two policy
    blocks and the request. *)
Lemma GenerateMulti_valid g services scope level w :
  valid_level level →
  GenerateMulti g services scope level w =
  match GenerateMulti_lookup (strings.ToLower level) services [] with
  | Err e => (Err e, w)
  | Ok svcs =>
      match GenerateMulti_policy g (List.filter is_zone svcs) scope
              (strings.ToLower level) [] with
      | Err e => (Err e, w)
      | Ok policies =>
          match GenerateMulti_policy g
                  (List.filter (λ svc, negb (is_zone svc)) svcs) scope
                  (strings.ToLower level) policies with
          | Err e => (Err e, w)
          | Ok policies =>
              createToken g
                (strings.Join (List.map Service.Name svcs) "-" +:+ "-" +:+ scope
                 +:+ "-" +:+ strings.ToLower level)
                policies w
          end
      end
  end.
Proof.
  intros Hlevel. unfold GenerateMulti.
  assert (negb (String.eqb (strings.ToLower level) "read")
          && negb (String.eqb (strings.ToLower level) "edit") = false) as ->.
  { destruct Hlevel as [-> | ->]; reflexivity. }
  unfold bind, lift.
  destruct (GenerateMulti_lookup _ services []) as [svcs|e]; [|done].
  rewrite GenerateMulti_group_filter.
  destruct (GenerateMulti_policy g (List.filter is_zone svcs) _ _ [])
    as [policies|e]; [|done].
  destruct (GenerateMulti_policy g _ _ _ policies) as [policies'|e]; [|done].
  by rewrite (fold_left_snoc_map Service.Name svcs []).
Qed.

Lemma createToken_received g name policies w r w' :
  createToken g name policies w = (r, w') →
  received w' = received w ++ [cloudflare.mkToken name policies]
  ∧ submitted r = true.
Proof.
  unfold createToken, api_CreateAPIToken.
  destruct (CreateAPIToken w _); intros [= <- <-]; done.
Qed.

Lemma emitted_same w : emitted w w = [].
Proof. unfold emitted. by rewrite drop_all. Qed.

Lemma emitted_one w w' token :
  received w' = received w ++ [token] → emitted w w' = [token].
Proof. unfold emitted. intros ->. by rewrite drop_app_length. Qed.

End EngineFacts.

(** ** Level validation and catalog lookup *)

Section Validation.

Context `{!strings.Unicode}.

Lemma resolved_prefix level pre :
  Forall (λ k, ∃ svc, resolves level k svc) pre →
  ∃ found, Forall2 (resolves level) pre found.
Proof.
  induction 1 as [|k pre [svc Hk] _ [found IH]].
  - exists []. constructor.
  - exists (svc :: found). by constructor.
Qed.

(** C4: a level that is neither "read" nor "edit" after lower-casing makes
    [GenerateMulti] fail with the invalid-level error, whatever the
    requested names and the scope are (unknown names included), and nothing
    is sent to the platform. *)
Theorem GenerateMulti_invalid_level g services scope level w :
  strings.ToLower level ≠ "read" →
  strings.ToLower level ≠ "edit" →
  GenerateMulti g services scope level w
  = (Err (ErrInvalidLevel (strings.ToLower level)), w).
Proof.
  intros Hread Hedit. unfold GenerateMulti.
  destruct (String.eqb_spec (strings.ToLower level) "read") as [|_]; [done|].
  destruct (String.eqb_spec (strings.ToLower level) "edit") as [|_]; [done|].
  reflexivity.
Qed.

(** C5: with a valid level, the first requested name whose trimmed,
    lower-cased form is not in the catalog makes [GenerateMulti] fail with
    the unknown-service error carrying exactly that name as requested, when
    all names before it resolve at the level; the names after it do not
    matter. *)
Theorem GenerateMulti_first_unknown g pre s rest scope level w :
  valid_level level →
  Forall (λ k, ∃ svc, resolves (strings.ToLower level) k svc) pre →
  Services !! lookup_key s = None →
  GenerateMulti g (pre ++ s :: rest) scope level w
  = (Err (ErrUnknownService s), w).
Proof.
  intros Hlevel [found Hpre]%resolved_prefix Hs.
  rewrite GenerateMulti_valid by done.
  rewrite (GenerateMulti_lookup_resolved _ _ _ _ _ Hpre). simpl.
  unfold lookup_key in Hs. by rewrite Hs.
Qed.

(** C10: with no requested name and a valid level, [GenerateMulti] passes
    validation for every generator (an empty account identifier included)
    and every scope, and sends exactly one request: no policy, and the name
    "-<scope>-<level>" with the level in its normalised (lower-case) form. *)
Theorem GenerateMulti_no_services g scope level w :
  valid_level level →
  ∃ r w',
    GenerateMulti g [] scope level w = (r, w')
    ∧ submitted r = true
    ∧ emitted w w'
      = [cloudflare.mkToken ("-" +:+ scope +:+ "-" +:+ strings.ToLower level) []]
    ∧ emitted_policies w w' = [].
Proof.
  intros Hlevel. rewrite GenerateMulti_valid by done. simpl.
  destruct (createToken g _ [] w) as [r w'] eqn:Hrun.
  apply createToken_received in Hrun as [Hrecv Hsub].
  exists r, w'. split; [done|]. split; [done|].
  unfold emitted_policies. rewrite (emitted_one _ _ _ Hrecv). done.
Qed.

End Validation.

(** ** Resource resolution *)

Section Resources.

Context `{!strings.Unicode}.

(** C2: what [buildResources] returns.  With a scope that lower-cases to
    "all": the all-zones wildcard for a zone-scoped service; for an
    account-scoped one the generator's account, or the missing-account error
    when the generator has none.  With any other scope: never an error, and
    the scope itself, unchanged, as the zone or account identifier.  Every
    result has the single entry shown. *)
Theorem buildResources_cases g svc scope :
  (strings.ToLower scope = "all" →
     (Service.ResourceScope svc = ResourceScopeZone →
        buildResources g svc scope
        = Ok {["com.cloudflare.api.account.zone.*" := "*"]})
     ∧ (Service.ResourceScope svc = ResourceScopeAccount →
          (accountID g ≠ "" →
             buildResources g svc scope
             = Ok {["com.cloudflare.api.account." +:+ accountID g := "*"]})
          ∧ (accountID g = "" →
               buildResources g svc scope
               = Err (ErrAccountIDRequired (Service.Name svc)))))
  ∧ (strings.ToLower scope ≠ "all" →
       (Service.ResourceScope svc = ResourceScopeZone →
          buildResources g svc scope
          = Ok {["com.cloudflare.api.account.zone." +:+ scope := "*"]})
       ∧ (Service.ResourceScope svc = ResourceScopeAccount →
            buildResources g svc scope
            = Ok {["com.cloudflare.api.account." +:+ scope := "*"]})).
Proof.
  unfold buildResources. split.
  - intros ->. simpl. split.
    + intros ->. simpl. by rewrite insert_empty.
    + intros ->. simpl. split.
      * intros Hacc. destruct (String.eqb_spec (accountID g) ""); [done|].
        by rewrite insert_empty.
      * intros ->. reflexivity.
  - intros Hscope.
    destruct (String.eqb_spec (strings.ToLower scope) "all"); [done|]. split.
    + intros ->. simpl. by rewrite insert_empty.
    + intros ->. simpl. by rewrite insert_empty.
Qed.

(** Whatever the service, a successful [buildResources] has one entry. *)
Lemma buildResources_size g svc scope resources :
  buildResources g svc scope = Ok resources → size resources = 1.
Proof.
  unfold buildResources. intros Hb.
  repeat match type of Hb with
         | (if ?c then _ else _) = _ => destruct c
         end;
    inversion Hb; subst; by rewrite insert_empty, map_size_singleton.
Qed.

Lemma Legacy_buildResources_same (gl : Legacy.Generator) g svc scope :
  Legacy.accountID gl = accountID g →
  Legacy.buildResources gl svc scope = buildResources g svc scope.
Proof. unfold Legacy.buildResources, buildResources. by intros ->. Qed.

End Resources.

(** ** Permission levels *)

Section Levels.

Context `{!strings.Unicode}.

Lemma ToLower_literal s :
  strings.is_ascii s = true → strings.ascii_ToLower s = s →
  strings.ToLower s = s.
Proof. intros Hascii Hlow. by rewrite strings.ToLower_ascii. Qed.

Lemma lookup_key_plain k : plain_key k = true → lookup_key k = k.
Proof.
  unfold plain_key, lookup_key. intros Hk.
  apply andb_prop in Hk as [Hk Htrim]. apply andb_prop in Hk as [Hascii Hlow].
  apply String.eqb_eq in Htrim, Hlow.
  rewrite strings.TrimSpace_ascii, Htrim by done. by apply ToLower_literal.
Qed.

Lemma valid_level_read : valid_level "read".
Proof. left. by apply ToLower_literal. Qed.

Lemma valid_level_edit : valid_level "edit".
Proof. right. by apply ToLower_literal. Qed.

Lemma valid_level_not_edit level :
  valid_level level → strings.ToLower level ≠ "edit" →
  strings.ToLower level = "read".
Proof. intros [?|?] ?; done. Qed.

(** The entry of "cache" in the catalog. *)
Lemma Services_cache :
  Services !! "cache"
  = Some (Service.mk "cache" "Cache purge" ResourceScopeZone
            [Permission.mk "e17beae8b8cb423a99b1730f21238bed" "Cache Purge"]).
Proof. vm_compute. reflexivity. Qed.

Lemma Cache_Purge_not_read id :
  mentions_read (Permission.mk id "Cache Purge") = false.
Proof.
  unfold mentions_read. simpl.
  rewrite strings.ToLower_ascii by reflexivity. reflexivity.
Qed.

(** After a resolving prefix, a known name without a permission at the
    level stops the lookup with the unsupported-level error. *)
Lemma GenerateMulti_unsupported g pre s svc rest scope level w :
  valid_level level →
  Forall (λ k, ∃ svc, resolves (strings.ToLower level) k svc) pre →
  Services !! lookup_key s = Some svc →
  filterPermissions (Service.Permissions svc) (strings.ToLower level) = [] →
  GenerateMulti g (pre ++ s :: rest) scope level w
  = (Err (ErrUnsupportedLevel (Service.Name svc) (strings.ToLower level)
            (strings.Join (ServiceLevels svc) ", ")), w).
Proof.
  intros Hlevel [found Hpre]%resolved_prefix Hs Hnone.
  rewrite GenerateMulti_valid by done.
  rewrite (GenerateMulti_lookup_resolved _ _ _ _ _ Hpre). simpl.
  unfold lookup_key in Hs. by rewrite Hs, Hnone.
Qed.

(** A request whose names all resolve does not end in a lookup error. *)
Lemma GenerateMulti_resolved_result g services found scope level w :
  valid_level level →
  Forall2 (resolves (strings.ToLower level)) services found →
  (∃ r w', GenerateMulti g services scope level w = (r, w')
           ∧ submitted r = true)
  ∨ (∃ name, GenerateMulti g services scope level w
             = (Err (ErrAccountIDRequired name), w)).
Proof.
  intros Hlevel Hall. rewrite GenerateMulti_valid by done.
  pose proof (GenerateMulti_lookup_resolved _ _ _ [] [] Hall) as Hlook.
  rewrite app_nil_r in Hlook. simpl in Hlook. rewrite Hlook.
  assert (∀ group policies e,
    GenerateMulti_policy g group scope (strings.ToLower level) policies = Err e →
    ∃ name, e = ErrAccountIDRequired name) as Hpolicy.
  { intros [|svc0 group] policies e; simpl; [done|].
    unfold buildResources.
    repeat match goal with
           | |- context [if ?c then _ else _] => destruct c
           end; intros [= <-]; eauto. }
  destruct (GenerateMulti_policy g (List.filter is_zone found) _ _ [])
    as [policies|e] eqn:Hz.
  - destruct (GenerateMulti_policy g _ _ _ policies) as [policies'|e] eqn:Ha.
    + left. destruct (createToken g _ policies' w) as [r w'] eqn:Hrun.
      apply createToken_received in Hrun as [_ Hsub]. eauto.
    + right. apply Hpolicy in Ha as [name ->]. eauto.
  - right. apply Hpolicy in Hz as [name ->]. eauto.
Qed.

(** C3: at level "edit" [filterPermissions] returns all permissions, at
    level "read" exactly those whose name, lower-cased, contains "read".  A
    requested known service (the names before it resolving) makes
    [GenerateMulti] fail with the unsupported-level error when its filtered
    permissions are empty, and only then; so "cache" at level "read" fails:
    "Cache Purge" does not contain "read". *)
Theorem filterPermissions_levels :
  (∀ perms, filterPermissions perms "edit" = perms)
  ∧ (∀ perms, filterPermissions perms "read" = List.filter mentions_read perms)
  ∧ (∀ g pre s svc scope level w,
       valid_level level →
       Forall (λ k, ∃ svc, resolves (strings.ToLower level) k svc) pre →
       Services !! lookup_key s = Some svc →
       (filterPermissions (Service.Permissions svc) (strings.ToLower level) = [] →
          ∀ rest,
            GenerateMulti g (pre ++ s :: rest) scope level w
            = (Err (ErrUnsupportedLevel (Service.Name svc) (strings.ToLower level)
                      (strings.Join (ServiceLevels svc) ", ")), w))
       ∧ (filterPermissions (Service.Permissions svc) (strings.ToLower level) ≠ [] →
            ∀ name lv available,
              (GenerateMulti g (pre ++ [s]) scope level w).1
              ≠ Err (ErrUnsupportedLevel name lv available)))
  ∧ (∀ g scope w,
       GenerateMulti g ["cache"] scope "read" w
       = (Err (ErrUnsupportedLevel "cache" "read" "edit"), w)).
Proof.
  split; [apply filterPermissions_edit|].
  split; [intros perms; by apply filterPermissions_other|].
  split.
  - intros g pre s svc scope level w Hlevel Hpre Hs. split.
    + intros Hnone rest. by apply GenerateMulti_unsupported.
    + intros Hsome name lv available.
      destruct (resolved_prefix _ _ Hpre) as [found Hfound].
      assert (Forall2 (resolves (strings.ToLower level)) (pre ++ [s])
                (found ++ [svc])) as Hall.
      { apply Forall2_app; [done|]. constructor; [done|constructor]. }
      destruct (GenerateMulti_resolved_result g _ _ scope level w Hlevel Hall)
        as [(r & w' & -> & Hsub)|[acc ->]]; simpl; [|done].
      intros ->. done.
  - intros g scope w.
    pose proof (λ svc, GenerateMulti_unsupported g [] "cache" svc [] scope
                         "read" w valid_level_read (Forall_nil_2 _)) as Hrun.
    rewrite (lookup_key_plain "cache") in Hrun by reflexivity.
    specialize (Hrun _ Services_cache).
    rewrite (ToLower_literal "read") in Hrun by reflexivity.
    simpl in Hrun. rewrite Hrun.
    + unfold ServiceLevels. simpl.
      rewrite strings.ToLower_ascii by reflexivity. reflexivity.
    + rewrite filterPermissions_other by done. simpl.
      by rewrite Cache_Purge_not_read.
Qed.

End Levels.

(** ** The policies of a request *)

Section Policies.

Context `{!strings.Unicode}.

Lemma GenerateMulti_lookup_local level services acc e :
  GenerateMulti_lookup level services acc = Err e → submitted (Err e) = false.
Proof.
  revert acc. induction services as [|s services IH]; intros acc; simpl; [done|].
  destruct (Services !! _) as [svc|]; [|by intros [= <-]].
  destruct (length _ =? 0)%nat; [by intros [= <-]|]. apply IH.
Qed.

Lemma GenerateMulti_policy_local g group scope level policies e :
  GenerateMulti_policy g group scope level policies = Err e →
  submitted (Err e) = false.
Proof.
  destruct group as [|svc0 group]; simpl; [done|].
  unfold buildResources.
  repeat match goal with
         | |- context [if ?c then _ else _] => destruct c
         end; by intros [= <-].
Qed.

Lemma GenerateMulti_policy_Ok g group scope level policies out :
  GenerateMulti_policy g group scope level policies = Ok out →
  ∃ new,
    out = policies ++ new
    ∧ match group with
      | [] => new = []
      | svc0 :: _ =>
          ∃ resources,
            buildResources g svc0 scope = Ok resources
            ∧ new = [cloudflare.mkPolicies "allow" resources
                       (permission_ids level group)]
      end.
Proof.
  destruct group as [|svc0 group]; simpl.
  - intros [= <-]. exists []. by rewrite app_nil_r.
  - destruct (buildResources g svc0 scope) as [resources|] eqn:Hb; [|done].
    intros [= <-]. eexists. split; [done|]. exists resources. split; [done|].
    by rewrite <- (GenerateMulti_permGroups_ids (svc0 :: group) level).
Qed.

(** Every run of [GenerateMulti]: a local failure that leaves the platform
    alone, or one request built from the resolved services. *)
Lemma GenerateMulti_run g services scope level w r w' :
  GenerateMulti g services scope level w = (r, w') →
  (submitted r = false ∧ w' = w)
  ∨ (submitted r = true ∧ valid_level level
     ∧ ∃ svcs zonePolicies policies,
         Forall2 (resolves (strings.ToLower level)) services svcs
         ∧ GenerateMulti_policy g (List.filter is_zone svcs) scope
             (strings.ToLower level) [] = Ok zonePolicies
         ∧ GenerateMulti_policy g
             (List.filter (λ svc, negb (is_zone svc)) svcs) scope
             (strings.ToLower level) zonePolicies = Ok policies
         ∧ received w'
           = received w ++
             [cloudflare.mkToken
                (strings.Join (List.map Service.Name svcs) "-" +:+ "-" +:+ scope
                 +:+ "-" +:+ strings.ToLower level)
                policies]).
Proof.
  destruct (String.eqb_spec (strings.ToLower level) "read") as [Hread|Hread];
    [|destruct (String.eqb_spec (strings.ToLower level) "edit") as [Hedit|Hedit]].
  3: { unfold GenerateMulti.
       destruct (String.eqb_spec (strings.ToLower level) "read"); [done|].
       destruct (String.eqb_spec (strings.ToLower level) "edit"); [done|].
       intros [= <- <-]. by left. }
  all: assert (valid_level level) as Hlevel by (unfold valid_level; auto).
  all: rewrite GenerateMulti_valid by done.
  all: destruct (GenerateMulti_lookup _ services []) as [svcs|e] eqn:Hlook;
    [|intros [= <- <-]; left; split; [by eapply GenerateMulti_lookup_local|done]].
  all: apply GenerateMulti_lookup_Ok in Hlook as (found & -> & Hall); simpl.
  all: destruct (GenerateMulti_policy g (List.filter is_zone found) _ _ [])
    as [zonePolicies|e] eqn:Hz;
    [|intros [= <- <-]; left; split; [by eapply GenerateMulti_policy_local|done]].
  all: destruct (GenerateMulti_policy g _ _ _ zonePolicies)
    as [policies|e] eqn:Ha;
    [|intros [= <- <-]; left; split; [by eapply GenerateMulti_policy_local|done]].
  all: intros [Hrecv Hsub]%createToken_received; right.
  all: split; [done|]; split; [done|].
  all: exists found, zonePolicies, policies; done.
Qed.

(** In the catalog the services that are not zone-scoped are the
    account-scoped ones. *)
Lemma resolved_account_filter level services svcs :
  Forall2 (resolves level) services svcs →
  List.filter (λ svc, negb (is_zone svc)) svcs = List.filter is_account svcs.
Proof.
  induction 1 as [|s svc services svcs [Hs _] _ IH]; simpl; [done|].
  rewrite IH. apply Services_entry_facts in Hs as (_ & _ & Hscope & _).
  unfold is_zone, is_account. by destruct Hscope as [-> | ->].
Qed.

(** C1: a call of [GenerateMulti] that passes validation sends one request
    whose policies are the zone policy (present when a zone-scoped service
    was requested) followed by the account policy (present when an
    account-scoped one was): at most one of each, two policies exactly when
    the request mixes both classes.  Each policy grants the identifiers of
    its group's services in the order requested, each service contributing
    its level-filtered permissions in catalog order. *)
Theorem GenerateMulti_policies g services scope level w r w' :
  GenerateMulti g services scope level w = (r, w') →
  submitted r = true →
  ∃ svcs name zonePolicies accountPolicies,
    Forall2 (λ s svc, Services !! lookup_key s = Some svc) services svcs
    ∧ emitted w w' = [cloudflare.mkToken name (zonePolicies ++ accountPolicies)]
    ∧ match List.filter is_zone svcs with
      | [] => zonePolicies = []
      | svc0 :: _ =>
          ∃ resources,
            buildResources g svc0 scope = Ok resources
            ∧ zonePolicies
              = [cloudflare.mkPolicies "allow" resources
                   (permission_ids (strings.ToLower level)
                      (List.filter is_zone svcs))]
      end
    ∧ match List.filter is_account svcs with
      | [] => accountPolicies = []
      | svc0 :: _ =>
          ∃ resources,
            buildResources g svc0 scope = Ok resources
            ∧ accountPolicies
              = [cloudflare.mkPolicies "allow" resources
                   (permission_ids (strings.ToLower level)
                      (List.filter is_account svcs))]
      end
    ∧ length zonePolicies ≤ 1
    ∧ length accountPolicies ≤ 1
    ∧ (length (zonePolicies ++ accountPolicies) = 2
       ↔ List.filter is_zone svcs ≠ [] ∧ List.filter is_account svcs ≠ []).
Proof.
  intros Hrun Hsub.
  apply GenerateMulti_run in Hrun as [[Hlocal _]|(_ & Hlevel & Hsent)];
    [congruence|].
  destruct Hsent as (svcs & zonePolicies & policies & Hall & Hz & Ha & Hrecv).
  rewrite (resolved_account_filter _ _ _ Hall) in Ha.
  apply GenerateMulti_policy_Ok in Hz as (zp & -> & Hzp).
  apply GenerateMulti_policy_Ok in Ha as (ap & -> & Hap). simpl in *.
  exists svcs. eexists. exists zp, ap.
  split. { eapply Forall2_impl; [exact Hall|]. by intros s svc [Hs _]. }
  split. { by apply emitted_one. }
  split; [done|]. split; [done|].
  destruct (List.filter is_zone svcs) as [|z0 zs];
    destruct (List.filter is_account svcs) as [|a0 accs].
  - subst. simpl. repeat split; try lia; intros []; done.
  - destruct Hap as (? & _ & ->). subst. simpl.
    repeat split; try lia; intros []; done.
  - destruct Hzp as (? & _ & ->). subst. simpl.
    repeat split; try lia; intros []; done.
  - destruct Hzp as (? & _ & ->). destruct Hap as (? & _ & ->). simpl.
    repeat split; try lia; done.
Qed.

End Policies.

(** ** God mode *)

Section GodModeFacts.

Context `{!strings.Unicode}.

Lemma deriveScope_find scopes :
  deriveScope scopes
  = match List.find class_hint scopes with
    | Some s => if strings.Contains s "zone" then "zone" else "account"
    | None => ""
    end.
Proof.
  induction scopes as [|s scopes IH]; simpl; [done|].
  unfold class_hint at 1.
  destruct (strings.Contains s "zone") eqn:Hz; simpl; [by rewrite Hz|].
  destruct (strings.Contains s "account"); simpl; [by rewrite Hz | done].
Qed.

Lemma deriveScope_no_hint scopes :
  Forall (λ s, class_hint s = false) scopes → deriveScope scopes = "".
Proof.
  intros Hall. rewrite deriveScope_find.
  destruct (List.find class_hint scopes) as [s|] eqn:Hfind; [|done].
  apply find_some in Hfind as [Hin Hs].
  rewrite Forall_forall in Hall. apply list_elem_of_In, Hall in Hin. congruence.
Qed.

Lemma GodMode_collect_buckets perms :
  GodMode_collect perms
  = (List.map (λ p, cloudflare.mkPermissionGroups (permissionGroup.ID p))
       (bucket "zone" perms),
     List.map (λ p, cloudflare.mkPermissionGroups (permissionGroup.ID p))
       (bucket "account" perms)).
Proof.
  unfold GodMode_collect.
  enough (∀ z a,
    fold_left
      (λ '(zonePerms, accountPerms) p,
         let nameLower := strings.ToLower (permissionGroup.Name p) in
         if strings.Contains nameLower "api token" then (zonePerms, accountPerms)
         else
           let scope := deriveScope (permissionGroup.Scopes p) in
           if String.eqb scope "zone" then
             (zonePerms ++ [cloudflare.mkPermissionGroups (permissionGroup.ID p)],
              accountPerms)
           else if String.eqb scope "account" then
             (zonePerms,
              accountPerms ++ [cloudflare.mkPermissionGroups (permissionGroup.ID p)])
           else (zonePerms, accountPerms))
      perms (z, a)
    = (z ++ List.map (λ p, cloudflare.mkPermissionGroups (permissionGroup.ID p))
              (bucket "zone" perms),
       a ++ List.map (λ p, cloudflare.mkPermissionGroups (permissionGroup.ID p))
              (bucket "account" perms))) as Hgen by apply (Hgen [] []).
  induction perms as [|p perms IH]; intros z a; simpl.
  - by rewrite !app_nil_r.
  - unfold bucket in *. simpl. fold (manages_tokens p).
    destruct (manages_tokens p) eqn:Hm; simpl; [apply IH|].
    destruct (String.eqb_spec (deriveScope (permissionGroup.Scopes p)) "zone")
      as [Hz|Hz].
    { rewrite Hz. simpl. rewrite IH, <- app_assoc. reflexivity. }
    destruct (String.eqb (deriveScope (permissionGroup.Scopes p)) "account");
      simpl; rewrite IH, <- ?app_assoc; reflexivity.
Qed.

Lemma GodMode_policies_granted g zonePerms accountPerms :
  granted (GodMode_policies g zonePerms accountPerms)
  = List.map cloudflare.ID zonePerms ++ List.map cloudflare.ID accountPerms.
Proof.
  unfold GodMode_policies, granted.
  destruct zonePerms, accountPerms; simpl; by rewrite ?app_nil_r.
Qed.

Lemma GodMode_policies_shape g zonePerms accountPerms policy :
  In policy (GodMode_policies g zonePerms accountPerms) →
  cloudflare.Effect policy = "allow" ∧ size (cloudflare.Resources policy) = 1.
Proof.
  unfold GodMode_policies.
  destruct zonePerms, accountPerms; simpl; intros Hin;
    repeat destruct Hin as [<-|Hin]; try done;
    simpl; by rewrite map_size_singleton.
Qed.

Lemma GodMode_policies_zone g zonePerms accountPerms :
  zonePerms ≠ [] →
  In (cloudflare.mkPolicies "allow"
        {["com.cloudflare.api.account.zone.*" := "*"]} zonePerms)
     (GodMode_policies g zonePerms accountPerms).
Proof.
  unfold GodMode_policies. destruct zonePerms; [done|]. intros _.
  destruct accountPerms; simpl; auto.
Qed.

Lemma GodMode_policies_account g zonePerms accountPerms :
  accountPerms ≠ [] →
  In (cloudflare.mkPolicies "allow"
        {["com.cloudflare.api.account." +:+ accountID g := "*"]} accountPerms)
     (GodMode_policies g zonePerms accountPerms).
Proof.
  unfold GodMode_policies. destruct accountPerms; [done|]. intros _.
  destruct zonePerms; simpl; auto.
Qed.

(** Every run of [GodMode]: a local or fetch failure that sends nothing, or
    one request assembled from the two buckets of the fetched list. *)
Lemma GodMode_run g w r w' :
  GodMode g w = (r, w') →
  (submitted r = false ∧ w' = w)
  ∨ (submitted r = true ∧ accountID g ≠ ""
     ∧ ∃ statusCode perms,
         permission_groups w ("Bearer " +:+ apiToken g)
         = Decoded true statusCode perms
         ∧ emitted_policies w w'
           = GodMode_policies g
               (List.map (λ p, cloudflare.mkPermissionGroups (permissionGroup.ID p))
                  (bucket "zone" perms))
               (List.map (λ p, cloudflare.mkPermissionGroups (permissionGroup.ID p))
                  (bucket "account" perms))).
Proof.
  unfold GodMode.
  destruct (String.eqb_spec (accountID g) "") as [|Hacc];
    [intros [= <- <-]; by left|].
  unfold bind, fetchPermissionGroups.
  destruct (permission_groups w _) as [cause|cause|[] statusCode perms] eqn:Hreply;
    try (intros [= <- <-]; by left).
  rewrite GodMode_collect_buckets.
  intros [Hrecv Hsub]%createToken_received. right.
  split; [done|]. split; [done|]. exists statusCode, perms. split; [done|].
  unfold emitted_policies. rewrite (emitted_one _ _ _ Hrecv). simpl.
  by rewrite app_nil_r.
Qed.

Lemma GodMode_granted g w r w' statusCode perms :
  permission_groups w ("Bearer " +:+ apiToken g) = Decoded true statusCode perms →
  GodMode g w = (r, w') →
  ∀ id, In id (granted (emitted_policies w w')) →
        ∃ q, In q perms ∧ permissionGroup.ID q = id
             ∧ manages_tokens q = false
             ∧ (deriveScope (permissionGroup.Scopes q) = "zone"
                ∨ deriveScope (permissionGroup.Scopes q) = "account").
Proof.
  intros Hreply Hrun id.
  apply GodMode_run in Hrun as [[_ ->]|(_ & _ & st & perms' & Hreply' & ->)].
  { unfold emitted_policies. by rewrite emitted_same. }
  rewrite Hreply in Hreply'. injection Hreply' as _ <-.
  rewrite GodMode_policies_granted, !map_map. simpl.
  intros [Hin|Hin]%in_app_or;
    apply in_map_iff in Hin as (q & Hid & Hq);
    apply filter_In in Hq as [Hq Hclass];
    apply andb_prop in Hclass as [Hkeep Hscope];
    apply negb_true_iff in Hkeep; apply String.eqb_eq in Hscope;
    exists q; auto.
Qed.

End GodModeFacts.

Section GodModeClaims.

Context `{!strings.Unicode}.

(** With an account identifier and a fetched list, the request [GodMode]
    sends holds the policies of the two buckets. *)
Lemma GodMode_fetched g w r w' statusCode perms :
  accountID g ≠ "" →
  permission_groups w ("Bearer " +:+ apiToken g) = Decoded true statusCode perms →
  GodMode g w = (r, w') →
  emitted_policies w w'
  = GodMode_policies g
      (List.map (λ p, cloudflare.mkPermissionGroups (permissionGroup.ID p))
         (bucket "zone" perms))
      (List.map (λ p, cloudflare.mkPermissionGroups (permissionGroup.ID p))
         (bucket "account" perms)).
Proof.
  intros Hacc Hreply Hrun.
  unfold GodMode in Hrun.
  destruct (String.eqb_spec (accountID g) ""); [done|].
  unfold bind, fetchPermissionGroups in Hrun. rewrite Hreply in Hrun.
  rewrite GodMode_collect_buckets in Hrun.
  apply createToken_received in Hrun as [Hrecv _].
  unfold emitted_policies. rewrite (emitted_one _ _ _ Hrecv). simpl.
  by rewrite app_nil_r.
Qed.

Lemma bucket_In scope perms p :
  In p perms → manages_tokens p = false →
  deriveScope (permissionGroup.Scopes p) = scope →
  In p (bucket scope perms).
Proof.
  intros Hin Hkeep Hscope. apply filter_In. split; [done|].
  by rewrite Hkeep, Hscope, String.eqb_refl.
Qed.

(** C6, amended: the exclusion is by group, not by identifier.  Every
    identifier granted by the request [GodMode] sends is that of a fetched
    group whose name, lower-cased, does not contain "api token".  So the
    identifier of an excluded group, whatever its scope hints, is granted by
    no policy unless a fetched group that is not excluded carries the same
    identifier: when every fetched group with that identifier is excluded,
    it is not granted. *)
Theorem GodMode_excludes_token_management g w r w' statusCode perms :
  permission_groups w ("Bearer " +:+ apiToken g) = Decoded true statusCode perms →
  GodMode g w = (r, w') →
  (∀ id, In id (granted (emitted_policies w w')) →
         ∃ q, In q perms ∧ permissionGroup.ID q = id ∧ manages_tokens q = false)
  ∧ (∀ p, In p perms → manages_tokens p = true →
          (∀ q, In q perms → permissionGroup.ID q = permissionGroup.ID p →
                manages_tokens q = true) →
          ¬ In (permissionGroup.ID p) (granted (emitted_policies w w'))).
Proof.
  intros Hreply Hrun.
  pose proof (GodMode_granted g w r w' statusCode perms Hreply Hrun) as Hgranted.
  split.
  - intros id (q & Hq & Hid & Hkeep & _)%Hgranted. eauto.
  - intros p Hp Hexcl Hsame (q & Hq & Hid & Hkeep & _)%Hgranted.
    apply Hsame in Hid; [|done]. congruence.
Qed.

(** C7, amended: [deriveScope] returns the class of the first hint that
    contains "zone" or "account" ("zone" winning within a hint), and the
    empty string when there is none.  A fetched group that is not excluded
    goes by that class into the zone policy or the account policy; with no
    class-indicating hint it is dropped, and its identifier is granted by no
    policy unless a fetched group that is kept carries the same identifier:
    when every fetched group with that identifier is excluded or has no
    class-indicating hint, it is not granted. *)
Theorem GodMode_scope_classes :
  (∀ scopes,
     deriveScope scopes
     = match List.find class_hint scopes with
       | Some s => if strings.Contains s "zone" then "zone" else "account"
       | None => ""
       end)
  ∧ (∀ g w r w' statusCode perms p,
       accountID g ≠ "" →
       permission_groups w ("Bearer " +:+ apiToken g)
       = Decoded true statusCode perms →
       GodMode g w = (r, w') →
       In p perms → manages_tokens p = false →
       (deriveScope (permissionGroup.Scopes p) = "zone" →
          ∃ policy,
            In policy (emitted_policies w w')
            ∧ cloudflare.Resources policy
              = {["com.cloudflare.api.account.zone.*" := "*"]}
            ∧ In (cloudflare.mkPermissionGroups (permissionGroup.ID p))
                 (cloudflare.PermissionGroups policy))
       ∧ (deriveScope (permissionGroup.Scopes p) = "account" →
            ∃ policy,
              In policy (emitted_policies w w')
              ∧ cloudflare.Resources policy
                = {["com.cloudflare.api.account." +:+ accountID g := "*"]}
              ∧ In (cloudflare.mkPermissionGroups (permissionGroup.ID p))
                   (cloudflare.PermissionGroups policy))
       ∧ (Forall (λ s, class_hint s = false) (permissionGroup.Scopes p) →
            (∀ q, In q perms →
                  permissionGroup.ID q = permissionGroup.ID p →
                  manages_tokens q = true
                  ∨ Forall (λ s, class_hint s = false) (permissionGroup.Scopes q)) →
            ¬ In (permissionGroup.ID p) (granted (emitted_policies w w')))).
Proof.
  split; [apply deriveScope_find|].
  intros g w r w' statusCode perms p Hacc Hreply Hrun Hp Hkeep.
  rewrite (GodMode_fetched g w r w' statusCode perms Hacc Hreply Hrun).
  pose proof (GodMode_granted g w r w' statusCode perms Hreply Hrun) as Hgranted.
  rewrite (GodMode_fetched g w r w' statusCode perms Hacc Hreply Hrun) in Hgranted.
  split; [|split].
  - intros Hzone.
    pose proof (bucket_In "zone" perms p Hp Hkeep Hzone) as Hin.
    eexists. split; [apply GodMode_policies_zone|split; [reflexivity|]].
    + intros Hnil. apply map_eq_nil in Hnil. rewrite Hnil in Hin. done.
    + simpl. by apply (in_map (λ p, cloudflare.mkPermissionGroups (permissionGroup.ID p))).
  - intros Haccount.
    pose proof (bucket_In "account" perms p Hp Hkeep Haccount) as Hin.
    eexists. split; [apply GodMode_policies_account|split; [reflexivity|]].
    + intros Hnil. apply map_eq_nil in Hnil. rewrite Hnil in Hin. done.
    + simpl. by apply (in_map (λ p, cloudflare.mkPermissionGroups (permissionGroup.ID p))).
  - intros _ Hsame (q & Hq & Hid & Hkept & Hclass)%Hgranted.
    destruct (Hsame q Hq Hid) as [Hexcl|Hnone%deriveScope_no_hint]; [congruence|].
    rewrite Hnone in Hclass. by destruct Hclass.
Qed.

(** C9: every policy in a request sent by [GenerateMulti] or by [GodMode]
    has effect "allow" and a resources map with exactly one entry. *)
Theorem emitted_policies_allow_one_resource :
  (∀ g services scope level w r w' policy,
     GenerateMulti g services scope level w = (r, w') →
     In policy (emitted_policies w w') →
     cloudflare.Effect policy = "allow"
     ∧ size (cloudflare.Resources policy) = 1)
  ∧ (∀ g w r w' policy,
       GodMode g w = (r, w') →
       In policy (emitted_policies w w') →
       cloudflare.Effect policy = "allow"
       ∧ size (cloudflare.Resources policy) = 1).
Proof.
  split.
  - intros g services scope level w r w' policy Hrun.
    apply GenerateMulti_run in Hrun as [[_ ->]|(_ & _ & Hsent)].
    { unfold emitted_policies. by rewrite emitted_same. }
    destruct Hsent as (svcs & zonePolicies & policies & _ & Hz & Ha & Hrecv).
    unfold emitted_policies. rewrite (emitted_one _ _ _ Hrecv). simpl.
    rewrite app_nil_r.
    apply GenerateMulti_policy_Ok in Hz as (zp & -> & Hzp).
    apply GenerateMulti_policy_Ok in Ha as (ap & -> & Hap). simpl.
    assert (∀ group new,
      match group with
      | [] => new = []
      | svc0 :: _ =>
          ∃ resources,
            buildResources g svc0 scope = Ok resources
            ∧ new = [cloudflare.mkPolicies "allow" resources
                       (permission_ids (strings.ToLower level) group)]
      end → In policy new →
      cloudflare.Effect policy = "allow"
      ∧ size (cloudflare.Resources policy) = 1) as Hshape.
    { intros [|svc0 group] new; [by intros ->|].
      intros (resources & Hb & ->) [<-|[]]. simpl.
      split; [done|]. by eapply buildResources_size. }
    intros [Hin|Hin]%in_app_or; eauto.
  - intros g w r w' policy Hrun.
    apply GodMode_run in Hrun as [[_ ->]|(_ & _ & st & perms & _ & ->)].
    { unfold emitted_policies. by rewrite emitted_same. }
    apply GodMode_policies_shape.
Qed.

End GodModeClaims.

(** ** One service through [Generate] *)

Section SingleService.

Context `{!strings.Unicode}.

(** What a single known service yields at level "edit": local failure with
    the error of [buildResources], or one request with the one policy over
    all of the service's permissions. *)
Lemma GenerateMulti_single_edit g key svc scope w :
  Services !! lookup_key key = Some svc →
  GenerateMulti g [key] scope "edit" w
  = match buildResources g svc scope with
    | Err e => (Err e, w)
    | Ok resources =>
        createToken g (Service.Name svc +:+ "-" +:+ scope +:+ "-" +:+ "edit")
          [cloudflare.mkPolicies "allow" resources
             (List.map (λ p, cloudflare.mkPermissionGroups (Permission.ID p))
                (Service.Permissions svc))]
          w
    end.
Proof.
  intros Hs. rewrite GenerateMulti_valid by apply valid_level_edit.
  rewrite (ToLower_literal "edit") by reflexivity.
  cbn [GenerateMulti_lookup]. unfold lookup_key in Hs. rewrite Hs.
  rewrite filterPermissions_edit.
  pose proof (Services_entry_facts _ _ Hs) as (_ & _ & Hscope & Hperms).
  destruct (Service.Permissions svc) as [|p perms] eqn:Hp; [done|].
  cbn [length Nat.eqb app List.filter List.map strings.Join String.concat].
  assert (permission_ids "edit" [svc]
          = List.map (λ p, cloudflare.mkPermissionGroups (Permission.ID p))
              (p :: perms)) as Hids.
  { unfold permission_ids. cbn [List.map List.concat].
    by rewrite filterPermissions_edit, Hp, app_nil_r. }
  destruct (is_zone svc); cbn [negb GenerateMulti_policy app];
    rewrite GenerateMulti_permGroups_ids, Hids;
    destruct (buildResources g svc scope); reflexivity.
Qed.

(** The stand-alone [Generate] on a name whose lower-case form is in the
    catalog; its call of the platform is the one [createToken] makes (which
    does not depend on the generator). *)
Lemma Legacy_Generate_known (gl : Legacy.Generator) g key svc scope w :
  Services !! strings.ToLower key = Some svc →
  Legacy.Generate gl key scope w
  = match Legacy.buildResources gl svc scope with
    | Err e => (Err e, w)
    | Ok resources =>
        createToken g (Service.Name svc +:+ "-" +:+ scope)
          [cloudflare.mkPolicies "allow" resources
             (List.map (λ p, cloudflare.mkPermissionGroups (Permission.ID p))
                (Service.Permissions svc))]
          w
    end.
Proof.
  intros Hs. unfold Legacy.Generate. rewrite Hs. unfold bind, lift.
  destruct (Legacy.buildResources gl svc scope) as [resources|e]; [|done].
  by rewrite (fold_left_snoc_map
                (λ p, cloudflare.mkPermissionGroups (Permission.ID p))
                (Service.Permissions svc) []).
Qed.

(** Both versions agree on a name written without surrounding space. *)
Lemma Legacy_Generate_agrees (gl : Legacy.Generator) g key svc scope w :
  strings.TrimSpace key = key →
  Services !! strings.ToLower key = Some svc →
  Legacy.accountID gl = accountID g →
  ∃ r1 w1 r2 w2,
    Legacy.Generate gl key scope w = (r1, w1)
    ∧ GenerateMulti g [key] scope "edit" w = (r2, w2)
    ∧ emitted_policies w w1 = emitted_policies w w2
    ∧ submitted r1 = submitted r2
    ∧ (submitted r1 = false → r1 = r2 ∧ w1 = w ∧ w2 = w).
Proof.
  intros Htrim Hs Hacc.
  rewrite (Legacy_Generate_known gl g key svc scope w Hs).
  rewrite (GenerateMulti_single_edit g key svc scope w)
    by (unfold lookup_key; by rewrite Htrim).
  rewrite (Legacy_buildResources_same gl g svc scope Hacc).
  destruct (buildResources g svc scope) as [resources|e] eqn:Hb.
  - destruct (createToken g (Service.Name svc +:+ "-" +:+ scope) _ w)
      as [r1 w1] eqn:H1.
    destruct (createToken g (Service.Name svc +:+ "-" +:+ scope +:+ "-" +:+ "edit")
                _ w) as [r2 w2] eqn:H2.
    apply createToken_received in H1 as [Hrecv1 Hsub1].
    apply createToken_received in H2 as [Hrecv2 Hsub2].
    exists r1, w1, r2, w2. split; [done|]. split; [done|].
    unfold emitted_policies.
    rewrite (emitted_one _ _ _ Hrecv1), (emitted_one _ _ _ Hrecv2). simpl.
    rewrite Hsub1, Hsub2. done.
  - exists (Err e), w, (Err e), w. repeat split; try done.
Qed.

(** C8, amended: [Generate] is [GenerateMulti] on the one-element list at
    level "edit", for every name.  The stand-alone [Generate] lower-cases
    its argument but does not trim it.  For every name without surrounding
    space whose lower-case form is a key of the catalog (the keys themselves,
    in any letter case) and every scope, it sends the same policy list
    (effect, resources, identifiers in order) as that call of
    [GenerateMulti], and fails locally exactly when it does, with the same
    error.  A name whose lower-case form is not a key, as a padded one, is
    unknown to it and nothing is sent. *)
Theorem Generate_same_policies :
  (∀ g service scope,
     Generate g service scope = GenerateMulti g [service] scope "edit")
  ∧ (∀ (gl : Legacy.Generator) key scope w,
       Services !! strings.ToLower key = None →
       Legacy.Generate gl key scope w = (Err (ErrUnknownService key), w))
  ∧ (∀ (gl : Legacy.Generator) g key svc scope w,
       strings.TrimSpace key = key →
       Services !! strings.ToLower key = Some svc →
       Legacy.accountID gl = accountID g →
       ∃ r1 w1 r2 w2,
         Legacy.Generate gl key scope w = (r1, w1)
         ∧ GenerateMulti g [key] scope "edit" w = (r2, w2)
         ∧ emitted_policies w w1 = emitted_policies w w2
         ∧ submitted r1 = submitted r2
         ∧ (submitted r1 = false → r1 = r2 ∧ w1 = w ∧ w2 = w)
         ∧ (submitted r1 = true →
              ∃ resources,
                buildResources g svc scope = Ok resources
                ∧ emitted_policies w w1
                  = [cloudflare.mkPolicies "allow" resources
                       (List.map
                          (λ p, cloudflare.mkPermissionGroups (Permission.ID p))
                          (Service.Permissions svc))])).
Proof.
  split; [reflexivity|]. split.
  { intros gl key scope w Hnone. unfold Legacy.Generate. by rewrite Hnone. }
  intros gl g key svc scope w Htrim Hs Hacc.
  destruct (Legacy_Generate_agrees gl g key svc scope w Htrim)
    as (r1 & w1 & r2 & w2 & H1 & H2 & Hsame & Hsub & Hlocal); [done..|].
  exists r1, w1, r2, w2. do 5 (split; [done|]).
  intros Hsent.
  rewrite (Legacy_Generate_known gl g key svc scope w) in H1 by done.
  rewrite (Legacy_buildResources_same gl g svc scope Hacc) in H1.
  destruct (buildResources g svc scope) as [resources|e] eqn:Hb.
  - apply createToken_received in H1 as [Hrecv _].
    exists resources. split; [done|].
    unfold emitted_policies. rewrite (emitted_one _ _ _ Hrecv). done.
  - injection H1 as <- <-.
    pose proof (GenerateMulti_policy_local g [svc] scope "edit" [] e) as Hloc.
    simpl in Hloc, Hsent. rewrite Hb in Hloc. specialize (Hloc eq_refl).
    congruence.
Qed.

End SingleService.

(** ** The engine on concrete requests *)

Example strings_examples :
  strings.ToLower "  DNS " = "  dns " ∧
  strings.TrimSpace "  DNS  " = "DNS" ∧
  strings.Contains "cache purge" "read" = false ∧
  strings.Contains "workers scripts read" "read" = true ∧
  strings.Join ["dns"; "workers"] "-" = "dns-workers" ∧
  strings.Join [] "-" = "".
Proof. vm_compute. repeat split. Qed.

Example run_dns_zone :
  GenerateMulti demo_generator ["dns"; " Zone "] "all" "Edit" (idle []) =
  (Ok "value-of-dns-zone-all-edit",
   mkWorld (CreateAPIToken (idle [])) (permission_groups (idle []))
     [cloudflare.mkToken "dns-zone-all-edit"
        [cloudflare.mkPolicies "allow" {["com.cloudflare.api.account.zone.*" := "*"]}
           [cloudflare.mkPermissionGroups "82e64a83756745bbbb1c9c2701bf816b";
            cloudflare.mkPermissionGroups "4755a26eedb94da69e1066d98aa820be";
            cloudflare.mkPermissionGroups "c8fed203ed3043cba015a93ad1616f1f";
            cloudflare.mkPermissionGroups "3030687196b94b638145a3953da2b699"]]]).
Proof. vm_compute. reflexivity. Qed.

Example run_mixed_read :
  emitted_policies (idle [])
    (GenerateMulti demo_generator ["workers"; "dns"; "kv"] "ALL" "read" (idle [])).2
  = [cloudflare.mkPolicies "allow" {["com.cloudflare.api.account.zone.*" := "*"]}
       [cloudflare.mkPermissionGroups "82e64a83756745bbbb1c9c2701bf816b"];
     cloudflare.mkPolicies "allow" {["com.cloudflare.api.account.acc1" := "*"]}
       [cloudflare.mkPermissionGroups "1a71c399035b4950a1bd1466bbe4f420";
        cloudflare.mkPermissionGroups "8b47d2786a534c08a1f94ee8f9f599ef"]].
Proof. vm_compute. reflexivity. Qed.

Example run_workers_without_account :
  GenerateMulti bare_generator ["workers"] "all" "edit" (idle [])
  = (Err (ErrAccountIDRequired "workers"), idle []).
Proof. vm_compute. reflexivity. Qed.

Example run_godmode :
  emitted (idle demo_groups) (GodMode demo_generator (idle demo_groups)).2
  = [cloudflare.mkToken "godmode"
       [cloudflare.mkPolicies "allow" {["com.cloudflare.api.account.zone.*" := "*"]}
          [cloudflare.mkPermissionGroups "4755a26eedb94da69e1066d98aa820be"];
        cloudflare.mkPolicies "allow" {["com.cloudflare.api.account.acc1" := "*"]}
          [cloudflare.mkPermissionGroups "e086da7e2179491d91ee5f35b3ca210a"]]].
Proof. vm_compute. reflexivity. Qed.

(** ** The theorems at concrete requests *)

Lemma GenerateMulti_policies_witness :
  ∃ svcs name zonePolicies accountPolicies,
    Forall2 (λ s svc, Services !! lookup_key s = Some svc) ["dns"; "workers"] svcs
    ∧ emitted (idle [])
        (GenerateMulti demo_generator ["dns"; "workers"] "all" "edit" (idle [])).2
      = [cloudflare.mkToken name (zonePolicies ++ accountPolicies)]
    ∧ length zonePolicies ≤ 1 ∧ length accountPolicies ≤ 1.
Proof.
  destruct (GenerateMulti_policies demo_generator ["dns"; "workers"] "all" "edit"
              (idle [])
              (GenerateMulti demo_generator ["dns"; "workers"] "all" "edit" (idle [])).1
              (GenerateMulti demo_generator ["dns"; "workers"] "all" "edit" (idle [])).2)
    as (svcs & name & zp & ap & Hall & Hem & _ & _ & Hz & Ha & _).
  - vm_compute. reflexivity.
  - vm_compute. reflexivity.
  - exists svcs, name, zp, ap. repeat split; assumption.
Defined.

Lemma buildResources_cases_witness :
  buildResources demo_generator
    (Service.mk "workers" "Workers scripts management" ResourceScopeAccount [])
    "All"
  = Ok {["com.cloudflare.api.account.acc1" := "*"]}.
Proof.
  apply (buildResources_cases demo_generator
           (Service.mk "workers" "Workers scripts management" ResourceScopeAccount [])
           "All").
  - vm_compute. reflexivity.
  - reflexivity.
  - vm_compute. discriminate.
Defined.

Lemma filterPermissions_levels_witness :
  GenerateMulti demo_generator ["dns"; "cache"; "nosuch"] "all" "READ" (idle [])
  = (Err (ErrUnsupportedLevel "cache" "read" "edit"), idle []).
Proof.
  pose proof filterPermissions_levels as (_ & _ & Hfail & _).
  destruct (Hfail demo_generator ["dns"] "cache"
              (Service.mk "cache" "Cache purge" ResourceScopeZone
                 [Permission.mk "e17beae8b8cb423a99b1730f21238bed" "Cache Purge"])
              "all" "READ" (idle [])) as [Hnone _].
  - left. vm_compute. reflexivity.
  - constructor; [|constructor].
    eexists. split; [vm_compute; reflexivity | vm_compute; discriminate].
  - vm_compute. reflexivity.
  - apply (Hnone eq_refl ["nosuch"]).
Defined.

Lemma GenerateMulti_invalid_level_witness :
  strings.ToLower "Write" ≠ "read" ∧ strings.ToLower "Write" ≠ "edit"
  ∧ GenerateMulti bare_generator ["nosuch"; "workers"] "all" "Write" (idle [])
    = (Err (ErrInvalidLevel "write"), idle []).
Proof.
  split; [vm_compute; discriminate|]. split; [vm_compute; discriminate|].
  rewrite (GenerateMulti_invalid_level bare_generator ["nosuch"; "workers"] "all"
             "Write" (idle [])) by (vm_compute; discriminate).
  reflexivity.
Defined.

Lemma GenerateMulti_first_unknown_witness :
  GenerateMulti demo_generator ["dns"; " Nosuch"; "zone"; "alsonot"] "all" "edit"
    (idle [])
  = (Err (ErrUnknownService " Nosuch"), idle []).
Proof.
  apply (GenerateMulti_first_unknown demo_generator ["dns"] " Nosuch"
           ["zone"; "alsonot"] "all" "edit" (idle [])).
  - right. vm_compute. reflexivity.
  - constructor; [|constructor].
    eexists. split; [vm_compute; reflexivity | vm_compute; discriminate].
  - vm_compute. reflexivity.
Defined.

Lemma GodMode_excludes_token_management_witness :
  ¬ In "5bc3f8b21c554832afc660159ab75fa4"
      (granted
         (emitted_policies (idle demo_groups)
            (GodMode demo_generator (idle demo_groups)).2)).
Proof.
  pose proof (GodMode_excludes_token_management demo_generator (idle demo_groups)
                (GodMode demo_generator (idle demo_groups)).1
                (GodMode demo_generator (idle demo_groups)).2
                200 demo_groups eq_refl) as Hgod.
  destruct Hgod as [_ Hexcluded]; [vm_compute; reflexivity|].
  apply (Hexcluded
           (permissionGroup.mk "5bc3f8b21c554832afc660159ab75fa4"
              "Account API Tokens Write" ["com.cloudflare.api.account"])).
  - simpl. auto.
  - vm_compute. reflexivity.
  - intros q Hq Hid. simpl in Hq.
    destruct Hq as [<-|[<-|[<-|[<-|[]]]]]; simpl in Hid;
      [discriminate | vm_compute; reflexivity | discriminate | discriminate].
Defined.

(** C6 as stated fails where an excluded group shares its identifier with
    a group that is kept: the identifier of "API Tokens Write" is granted. *)
Lemma GodMode_excludes_token_management_counterexample :
  In (permissionGroup.mk "5bc3f8b21c554832afc660159ab75fa4" "API Tokens Write"
        ["com.cloudflare.api.user"])
     token_twin_groups
  ∧ manages_tokens
      (permissionGroup.mk "5bc3f8b21c554832afc660159ab75fa4" "API Tokens Write"
         ["com.cloudflare.api.user"]) = true
  ∧ emitted_policies (idle token_twin_groups)
      (GodMode demo_generator (idle token_twin_groups)).2
    = [cloudflare.mkPolicies "allow" {["com.cloudflare.api.account.zone.*" := "*"]}
         [cloudflare.mkPermissionGroups "5bc3f8b21c554832afc660159ab75fa4"]]
  ∧ In "5bc3f8b21c554832afc660159ab75fa4"
       (granted
          (emitted_policies (idle token_twin_groups)
             (GodMode demo_generator (idle token_twin_groups)).2)).
Proof.
  split; [by left|]. split; [vm_compute; reflexivity|].
  split; [vm_compute; reflexivity|]. vm_compute. by left.
Qed.

Lemma GodMode_scope_classes_witness :
  deriveScope ["com.cloudflare.api.user"; "com.cloudflare.api.account.zone"] = "zone"
  ∧ ¬ In "3518d0f75557482e952c6762d3e64903"
        (granted
           (emitted_policies (idle demo_groups)
              (GodMode demo_generator (idle demo_groups)).2)).
Proof.
  pose proof GodMode_scope_classes as [Hderive Hclass].
  split; [rewrite Hderive; vm_compute; reflexivity|].
  destruct (Hclass demo_generator (idle demo_groups)
              (GodMode demo_generator (idle demo_groups)).1
              (GodMode demo_generator (idle demo_groups)).2
              200%Z demo_groups
              (permissionGroup.mk "3518d0f75557482e952c6762d3e64903"
                 "Memberships Read" ["com.cloudflare.api.user"]))
    as (_ & _ & Hdropped).
  - vm_compute. discriminate.
  - reflexivity.
  - vm_compute. reflexivity.
  - simpl. auto.
  - vm_compute. reflexivity.
  - apply Hdropped.
    + constructor; [vm_compute; reflexivity | constructor].
    + intros q Hq Hid. simpl in Hq.
      destruct Hq as [<-|[<-|[<-|[<-|[]]]]]; simpl in Hid;
        [discriminate | discriminate | discriminate |].
      right. constructor; [vm_compute; reflexivity | constructor].
Defined.

(** C7 as stated fails where a dropped group shares its identifier with a
    group that is kept: "Memberships Read" is not excluded and has no
    class-indicating hint, and its identifier is granted. *)
Lemma GodMode_scope_classes_counterexample :
  In (permissionGroup.mk "3518d0f75557482e952c6762d3e64903" "Memberships Read"
        ["com.cloudflare.api.user"])
     user_twin_groups
  ∧ manages_tokens
      (permissionGroup.mk "3518d0f75557482e952c6762d3e64903" "Memberships Read"
         ["com.cloudflare.api.user"]) = false
  ∧ Forall (λ s, class_hint s = false) ["com.cloudflare.api.user"]
  ∧ emitted_policies (idle user_twin_groups)
      (GodMode demo_generator (idle user_twin_groups)).2
    = [cloudflare.mkPolicies "allow" {["com.cloudflare.api.account.zone.*" := "*"]}
         [cloudflare.mkPermissionGroups "3518d0f75557482e952c6762d3e64903"]]
  ∧ In "3518d0f75557482e952c6762d3e64903"
       (granted
          (emitted_policies (idle user_twin_groups)
             (GodMode demo_generator (idle user_twin_groups)).2)).
Proof.
  split; [by left|]. split; [vm_compute; reflexivity|].
  split; [constructor; [vm_compute; reflexivity | constructor]|].
  split; [vm_compute; reflexivity|]. vm_compute. by left.
Qed.

Lemma Generate_same_policies_witness :
  emitted_policies (idle [])
    (Legacy.Generate demo_legacy "DNS" "zone-1" (idle [])).2
  = emitted_policies (idle [])
      (GenerateMulti demo_generator ["DNS"] "zone-1" "edit" (idle [])).2.
Proof.
  pose proof Generate_same_policies as (_ & _ & Hlegacy).
  destruct (Hlegacy demo_legacy demo_generator "DNS"
              (Service.mk "dns" "DNS records management" ResourceScopeZone
                 [ Permission.mk "82e64a83756745bbbb1c9c2701bf816b" "DNS Read";
                   Permission.mk "4755a26eedb94da69e1066d98aa820be" "DNS Write" ])
              "zone-1" (idle []))
    as (r1 & w1 & r2 & w2 & H1 & H2 & Hsame & _).
  - vm_compute. reflexivity.
  - vm_compute. reflexivity.
  - reflexivity.
  - rewrite H1, H2. exact Hsame.
Defined.

(** C8 as stated fails on a padded name: [GenerateMulti] knows " dns" and
    sends the policy of "dns", the stand-alone [Generate] returns the
    unknown-service error and sends nothing. *)
Lemma Generate_same_policies_counterexample :
  Services !! lookup_key " dns" = Services !! "dns"
  ∧ Legacy.Generate demo_legacy " dns" "all" (idle [])
    = (Err (ErrUnknownService " dns"), idle [])
  ∧ emitted_policies (idle [])
      (Legacy.Generate demo_legacy " dns" "all" (idle [])).2 = []
  ∧ emitted_policies (idle [])
      (GenerateMulti demo_generator [" dns"] "all" "edit" (idle [])).2
    = [cloudflare.mkPolicies "allow" {["com.cloudflare.api.account.zone.*" := "*"]}
         [cloudflare.mkPermissionGroups "82e64a83756745bbbb1c9c2701bf816b";
          cloudflare.mkPermissionGroups "4755a26eedb94da69e1066d98aa820be"]].
Proof. vm_compute. repeat split. Qed.

Lemma emitted_policies_allow_one_resource_witness :
  Forall
    (λ policy,
       cloudflare.Effect policy = "allow"
       ∧ size (cloudflare.Resources policy) = 1)
    (emitted_policies (idle [])
       (GenerateMulti demo_generator ["workers"; "dns"] "all" "edit" (idle [])).2).
Proof.
  pose proof emitted_policies_allow_one_resource as [Hmulti _].
  apply Forall_forall. intros policy Hin%list_elem_of_In.
  apply (Hmulti demo_generator ["workers"; "dns"] "all" "edit" (idle [])
           (GenerateMulti demo_generator ["workers"; "dns"] "all" "edit" (idle [])).1
           (GenerateMulti demo_generator ["workers"; "dns"] "all" "edit" (idle [])).2).
  - vm_compute. reflexivity.
  - exact Hin.
Defined.

Lemma GenerateMulti_no_services_witness :
  valid_level "READ"
  ∧ ∃ r w',
      GenerateMulti bare_generator [] "all" "READ" (idle []) = (r, w')
      ∧ submitted r = true
      ∧ emitted (idle []) w' = [cloudflare.mkToken "-all-read" []]
      ∧ emitted_policies (idle []) w' = [].
Proof.
  assert (valid_level "READ") as Hlevel by (left; vm_compute; reflexivity).
  split; [exact Hlevel|].
  apply (GenerateMulti_no_services bare_generator "all" "READ" (idle []) Hlevel).
Defined.

(** ** Levels a service offers *)

Section OfferedLevels.

Context `{!strings.Unicode}.

Lemma ServiceLevels_loop_exists perms :
  ServiceLevels_loop perms
  = if existsb mentions_read perms then ["read"; "edit"] else ["edit"].
Proof.
  induction perms as [|p perms IH]; simpl; [done|].
  unfold mentions_read at 1.
  by destruct (strings.Contains (strings.ToLower (Permission.Name p)) "read").
Qed.

Lemma filter_nil_existsb {A} (f : A → bool) (l : list A) :
  List.filter f l = [] ↔ existsb f l = false.
Proof.
  induction l as [|x l IH]; simpl; [done|].
  destruct (f x); simpl; [split; discriminate | exact IH].
Qed.

(** [ServiceLevels] lists "read" exactly when some permission name mentions
    it, and always ends with "edit".  For a service that has permissions it
    therefore lists, among "read" and "edit", exactly the levels at which
    [filterPermissions] leaves something, which are the levels the lookup of
    [GenerateMulti] accepts. *)
Theorem ServiceLevels_offered svc :
  ServiceLevels svc
  = (if existsb mentions_read (Service.Permissions svc)
     then ["read"; "edit"] else ["edit"])
  ∧ (∀ level,
       level = "read" ∨ level = "edit" →
       Service.Permissions svc ≠ [] →
       (In level (ServiceLevels svc)
        ↔ filterPermissions (Service.Permissions svc) level ≠ [])).
Proof.
  unfold ServiceLevels. rewrite ServiceLevels_loop_exists. split; [done|].
  intros level [-> | ->] Hperms.
  - rewrite filterPermissions_other by done. rewrite filter_nil_existsb.
    destruct (existsb mentions_read (Service.Permissions svc)); simpl.
    + split; [done | auto].
    + split; [intros [|[]]; done | done].
  - rewrite filterPermissions_edit.
    destruct (existsb mentions_read (Service.Permissions svc)); simpl; split; auto.
Qed.

End OfferedLevels.

(** ** What a call does to the platform *)

Section Traffic.

Context `{!strings.Unicode}.

Lemma createToken_sends g name policies :
  sends_at_most_once (createToken g name policies).
Proof.
  intros w r w'. unfold createToken, api_CreateAPIToken.
  destruct (CreateAPIToken w _); intros [= <- <-]; simpl;
    (split; [done|]); (split; [done|]); right; eauto.
Qed.

Lemma local_or_createToken_sends (m : M string) :
  (∀ w r w',
     m w = (r, w') →
     (submitted r = false ∧ w' = w)
     ∨ ∃ g name policies, createToken g name policies w = (r, w')) →
  sends_at_most_once m.
Proof.
  intros Hm w r w' Hrun.
  apply Hm in Hrun as [[Hlocal ->]|(g & name & policies & Hrun)].
  - split; [done|]. split; [done|]. by left.
  - by apply createToken_sends in Hrun.
Qed.

Lemma GenerateMulti_local_or_createToken g services scope level w r w' :
  GenerateMulti g services scope level w = (r, w') →
  (submitted r = false ∧ w' = w)
  ∨ ∃ g' name policies, createToken g' name policies w = (r, w').
Proof.
  destruct (String.eqb_spec (strings.ToLower level) "read") as [Hread|Hread];
    [|destruct (String.eqb_spec (strings.ToLower level) "edit") as [Hedit|Hedit]].
  3: { unfold GenerateMulti.
       destruct (String.eqb_spec (strings.ToLower level) "read"); [done|].
       destruct (String.eqb_spec (strings.ToLower level) "edit"); [done|].
       intros [= <- <-]. by left. }
  all: assert (valid_level level) as Hlevel by (unfold valid_level; auto).
  all: rewrite GenerateMulti_valid by done.
  all: destruct (GenerateMulti_lookup _ services []) as [svcs|e] eqn:Hlook;
    [|intros [= <- <-]; left; split; [by eapply GenerateMulti_lookup_local|done]].
  all: destruct (GenerateMulti_policy g (List.filter is_zone svcs) _ _ [])
    as [zonePolicies|e] eqn:Hz;
    [|intros [= <- <-]; left; split; [by eapply GenerateMulti_policy_local|done]].
  all: destruct (GenerateMulti_policy g _ _ _ zonePolicies)
    as [policies|e] eqn:Ha;
    [|intros [= <- <-]; left; split; [by eapply GenerateMulti_policy_local|done]].
  all: intros Hrun; right; eauto.
Qed.

Lemma GodMode_local_or_createToken g w r w' :
  GodMode g w = (r, w') →
  (submitted r = false ∧ w' = w)
  ∨ ∃ g' name policies, createToken g' name policies w = (r, w').
Proof.
  unfold GodMode.
  destruct (String.eqb_spec (accountID g) "") as [|Hacc];
    [intros [= <- <-]; by left|].
  unfold bind, fetchPermissionGroups.
  destruct (permission_groups w _) as [cause|cause|[] statusCode perms];
    try (intros [= <- <-]; by left).
  destruct (GodMode_collect perms) as [zonePerms accountPerms].
  intros Hrun. right. eauto.
Qed.

Lemma Legacy_Generate_local_or_createToken
    (gl : Legacy.Generator) service scope w r w' :
  Legacy.Generate gl service scope w = (r, w') →
  (submitted r = false ∧ w' = w)
  ∨ ∃ g' name policies, createToken g' name policies w = (r, w').
Proof.
  unfold Legacy.Generate.
  destruct (Services !! strings.ToLower service) as [svc|];
    [|intros [= <- <-]; by left].
  unfold bind, lift.
  destruct (Legacy.buildResources gl svc scope) as [resources|e] eqn:Hb.
  - intros Hrun. right. exists demo_generator. eexists _, _. exact Hrun.
  - intros [= <- <-]. left. split; [|done].
    revert Hb. unfold Legacy.buildResources.
    repeat match goal with
           | |- context [if ?c then _ else _] => destruct c
           end; by intros [= <-].
Qed.

(** Each entry point of the generator talks to the platform at most once:
    a call that fails locally (validation, missing account, failed fetch)
    sends no token-creation request, any other call sends exactly one, and
    the requests received before are kept. *)
Theorem entry_points_send_at_most_once :
  (∀ g services scope level,
     sends_at_most_once (GenerateMulti g services scope level))
  ∧ (∀ g, sends_at_most_once (GodMode g))
  ∧ (∀ gl service scope,
       sends_at_most_once (Legacy.Generate gl service scope)).
Proof.
  split; [|split]; intros; apply local_or_createToken_sends.
  - apply GenerateMulti_local_or_createToken.
  - apply GodMode_local_or_createToken.
  - apply Legacy_Generate_local_or_createToken.
Qed.

End Traffic.

(** ** Requests whose names all resolve *)

Section Resolved.

Context `{!strings.Unicode}.

Lemma GenerateMulti_resolved g services svcs scope level w :
  valid_level level →
  Forall2 (resolves (strings.ToLower level)) services svcs →
  GenerateMulti g services scope level w
  = match GenerateMulti_policy g (List.filter is_zone svcs) scope
            (strings.ToLower level) [] with
    | Err e => (Err e, w)
    | Ok zonePolicies =>
        match GenerateMulti_policy g (List.filter is_account svcs) scope
                (strings.ToLower level) zonePolicies with
        | Err e => (Err e, w)
        | Ok policies =>
            createToken g
              (strings.Join (List.map lookup_key services) "-" +:+ "-" +:+ scope
               +:+ "-" +:+ strings.ToLower level)
              policies w
        end
    end.
Proof.
  intros Hlevel Hall. rewrite GenerateMulti_valid by done.
  pose proof (GenerateMulti_lookup_resolved _ _ _ [] [] Hall) as Hlook.
  rewrite app_nil_r in Hlook. simpl in Hlook. rewrite Hlook.
  rewrite (resolved_account_filter _ _ _ Hall).
  assert (List.map Service.Name svcs = List.map lookup_key services) as ->; [|done].
  clear Hlook. induction Hall as [|s svc services svcs [Hs _] _ IH]; simpl; [done|].
  rewrite IH. by apply Services_entry_facts in Hs as (_ & -> & _).
Qed.

(** When [buildResources] fails, and what it returns otherwise. *)
Lemma buildResources_zone g svc scope :
  is_zone svc = true →
  buildResources g svc scope
  = Ok {[(if String.eqb (strings.ToLower scope) "all"
          then "com.cloudflare.api.account.zone.*"
          else "com.cloudflare.api.account.zone." +:+ scope) := "*"]}.
Proof.
  unfold is_zone, buildResources. intros ->.
  destruct (String.eqb (strings.ToLower scope) "all"); by rewrite insert_empty.
Qed.

Lemma buildResources_not_zone g svc scope :
  is_zone svc = false →
  buildResources g svc scope
  = if String.eqb (strings.ToLower scope) "all" then
      if String.eqb (accountID g) "" then Err (ErrAccountIDRequired (Service.Name svc))
      else Ok {["com.cloudflare.api.account." +:+ accountID g := "*"]}
    else Ok {["com.cloudflare.api.account." +:+ scope := "*"]}.
Proof.
  unfold is_zone, buildResources. intros ->.
  destruct (String.eqb (strings.ToLower scope) "all");
    [destruct (String.eqb (accountID g) "")|]; by rewrite ?insert_empty.
Qed.

Lemma filter_head_true {A} (f : A → bool) l x rest :
  List.filter f l = x :: rest → f x = true.
Proof.
  intros Hf. assert (In x (List.filter f l)) as Hin by (rewrite Hf; by left).
  by apply filter_In in Hin as [_ ?].
Qed.

Lemma is_account_not_zone svc : is_account svc = true → is_zone svc = false.
Proof.
  unfold is_account, is_zone. intros ->%String.eqb_eq. reflexivity.
Qed.

(** A call that got past validation, in terms of the resolved services. *)
Lemma GenerateMulti_submitted g services scope level w r w' :
  GenerateMulti g services scope level w = (r, w') →
  submitted r = true →
  valid_level level
  ∧ ∃ svcs zonePolicies policies,
      Forall2 (resolves (strings.ToLower level)) services svcs
      ∧ GenerateMulti_policy g (List.filter is_zone svcs) scope
          (strings.ToLower level) [] = Ok zonePolicies
      ∧ GenerateMulti_policy g (List.filter is_account svcs) scope
          (strings.ToLower level) zonePolicies = Ok policies
      ∧ createToken g
          (strings.Join (List.map lookup_key services) "-" +:+ "-" +:+ scope
           +:+ "-" +:+ strings.ToLower level)
          policies w = (r, w').
Proof.
  intros Hrun Hsub.
  pose proof Hrun as Hrun'.
  apply GenerateMulti_run in Hrun' as [[Hlocal _]|(_ & Hlevel & Hsent)];
    [congruence|].
  destruct Hsent as (svcs & _ & _ & Hall & _). split; [done|].
  rewrite (GenerateMulti_resolved g services svcs scope level w Hlevel Hall) in Hrun.
  destruct (GenerateMulti_policy g (List.filter is_zone svcs) _ _ [])
    as [zonePolicies|e] eqn:Hz.
  2: { injection Hrun as <- <-.
       apply GenerateMulti_policy_local in Hz. congruence. }
  destruct (GenerateMulti_policy g (List.filter is_account svcs) _ _ zonePolicies)
    as [policies|e] eqn:Ha.
  2: { injection Hrun as <- <-.
       apply GenerateMulti_policy_local in Ha. congruence. }
  exists svcs, zonePolicies, policies. done.
Qed.

(** The name of the token [GenerateMulti] asks for: the catalog keys of the
    requested names (trimmed, lower case) in request order, the scope as
    given, and the lower-cased level, joined by "-". *)
Theorem GenerateMulti_token_name g services scope level w r w' :
  GenerateMulti g services scope level w = (r, w') →
  submitted r = true →
  ∃ policies,
    emitted w w'
    = [cloudflare.mkToken
         (strings.Join (List.map lookup_key services) "-" +:+ "-" +:+ scope
          +:+ "-" +:+ strings.ToLower level)
         policies].
Proof.
  intros Hrun Hsub.
  destruct (GenerateMulti_submitted _ _ _ _ _ _ _ Hrun Hsub)
    as (_ & svcs & zp & policies & _ & _ & _ & Hsend).
  apply createToken_received in Hsend as [Hrecv _].
  exists policies. by apply emitted_one.
Qed.

(** With a valid level and names that all resolve, the only thing that can
    still stop [GenerateMulti] is the missing account identifier: scope
    "all" (in any letter case), no account identifier, and an account-scoped
    service among those requested.  The error names the first such service
    in request order, and nothing is sent even when zone-scoped services
    were requested too.  In every other case the request is sent. *)
Theorem GenerateMulti_account_required g services svcs scope level w :
  valid_level level →
  Forall2 (resolves (strings.ToLower level)) services svcs →
  (∀ svc0 rest,
     List.filter is_account svcs = svc0 :: rest →
     strings.ToLower scope = "all" → accountID g = "" →
     GenerateMulti g services scope level w
     = (Err (ErrAccountIDRequired (Service.Name svc0)), w))
  ∧ (List.filter is_account svcs = [] ∨ strings.ToLower scope ≠ "all"
     ∨ accountID g ≠ "" →
     submitted (GenerateMulti g services scope level w).1 = true).
Proof.
  intros Hlevel Hall.
  rewrite (GenerateMulti_resolved g services svcs scope level w Hlevel Hall).
  assert (∃ zonePolicies,
            GenerateMulti_policy g (List.filter is_zone svcs) scope
              (strings.ToLower level) [] = Ok zonePolicies) as [zp ->].
  { destruct (List.filter is_zone svcs) as [|z0 zs] eqn:Hz; simpl; [eauto|].
    rewrite buildResources_zone by (by eapply filter_head_true). eauto. }
  split.
  - intros svc0 rest Hacc Hscope Hid. rewrite Hacc. simpl.
    rewrite buildResources_not_zone
      by (apply is_account_not_zone; by eapply filter_head_true).
    by rewrite Hscope, Hid.
  - intros Hok.
    destruct (List.filter is_account svcs) as [|a0 accs] eqn:Hacc; simpl.
    { destruct (createToken g _ zp w) as [r w'] eqn:Hrun.
      by apply createToken_received in Hrun as [_ ?]. }
    rewrite buildResources_not_zone
      by (apply is_account_not_zone; by eapply filter_head_true).
    destruct Hok as [?|[Hscope|Hid]]; [done| |].
    + destruct (String.eqb_spec (strings.ToLower scope) "all"); [done|].
      destruct (createToken g _ _ w) as [r w'] eqn:Hrun.
      by apply createToken_received in Hrun as [_ ?].
    + destruct (String.eqb (strings.ToLower scope) "all");
        [destruct (String.eqb_spec (accountID g) ""); [done|]|];
        destruct (createToken g _ _ w) as [r w'] eqn:Hrun;
        by apply createToken_received in Hrun as [_ ?].
Qed.

End Resolved.

(** ** How the policies are put together *)

Section Composition.

Context `{!strings.Unicode}.

Lemma GenerateMulti_policy_ids g group scope level policies :
  GenerateMulti_policy g group scope level policies
  = match group with
    | [] => Ok policies
    | svc0 :: _ =>
        match buildResources g svc0 scope with
        | Err e => Err e
        | Ok resources =>
            Ok (policies ++
                [cloudflare.mkPolicies "allow" resources
                   (permission_ids level group)])
        end
    end.
Proof.
  destruct group as [|svc0 group]; simpl; [done|].
  by rewrite <- (GenerateMulti_permGroups_ids (svc0 :: group) level).
Qed.

Lemma permission_ids_cons level svc svcs :
  permission_ids level (svc :: svcs)
  = List.map (λ p, cloudflare.mkPermissionGroups (Permission.ID p))
      (filterPermissions (Service.Permissions svc) level)
    ++ permission_ids level svcs.
Proof. reflexivity. Qed.

Lemma permission_ids_split level (f : Service.t → bool) svcs :
  permission_ids level (List.filter f svcs)
  ++ permission_ids level (List.filter (λ svc, negb (f svc)) svcs)
  ≡ₚ permission_ids level svcs.
Proof.
  induction svcs as [|svc svcs IH]; simpl; [done|].
  destruct (f svc); simpl; rewrite !permission_ids_cons.
  - by rewrite <- app_assoc, IH.
  - rewrite <- IH. by rewrite Permutation_app_swap_app.
Qed.

Lemma granted_app ps qs : granted (ps ++ qs) = granted ps ++ granted qs.
Proof. unfold granted. by rewrite map_app, concat_app. Qed.

Lemma granted_new g group scope level new :
  match group with
  | [] => new = []
  | svc0 :: _ =>
      ∃ resources,
        buildResources g svc0 scope = Ok resources
        ∧ new = [cloudflare.mkPolicies "allow" resources
                   (permission_ids level group)]
  end →
  granted new = List.map cloudflare.ID (permission_ids level group).
Proof.
  destruct group as [|svc0 group]; [by intros ->|].
  intros (resources & _ & ->). unfold granted. simpl. by rewrite app_nil_r.
Qed.

(** A scope other than "all" is used for both classes at once: in a request
    that passes validation it is the zone identifier of the zone policy and
    the account identifier of the account policy, and the generator's own
    account identifier is not used. *)
Theorem GenerateMulti_specific_scope g services svcs scope level w :
  valid_level level →
  Forall2 (resolves (strings.ToLower level)) services svcs →
  strings.ToLower scope ≠ "all" →
  ∃ r w',
    GenerateMulti g services scope level w = (r, w')
    ∧ submitted r = true
    ∧ emitted_policies w w'
      = match List.filter is_zone svcs with
        | [] => []
        | _ :: _ =>
            [cloudflare.mkPolicies "allow"
               {["com.cloudflare.api.account.zone." +:+ scope := "*"]}
               (permission_ids (strings.ToLower level) (List.filter is_zone svcs))]
        end
        ++
        match List.filter is_account svcs with
        | [] => []
        | _ :: _ =>
            [cloudflare.mkPolicies "allow"
               {["com.cloudflare.api.account." +:+ scope := "*"]}
               (permission_ids (strings.ToLower level)
                  (List.filter is_account svcs))]
        end.
Proof.
  intros Hlevel Hall Hscope.
  rewrite (GenerateMulti_resolved g services svcs scope level w Hlevel Hall).
  apply String.eqb_neq in Hscope.
  destruct (List.filter is_zone svcs) as [|z0 zs] eqn:Hz;
    destruct (List.filter is_account svcs) as [|a0 accs] eqn:Ha;
    repeat (first
      [ rewrite GenerateMulti_policy_ids
      | rewrite (buildResources_zone g z0) by (by eapply filter_head_true)
      | rewrite (buildResources_not_zone g a0)
          by (apply is_account_not_zone; by eapply filter_head_true)
      | rewrite Hscope ];
      cbv beta iota);
    match goal with
    | |- context [createToken g ?n ?ps w] =>
        destruct (createToken g n ps w) as [r w'] eqn:Hrun
    end;
    apply createToken_received in Hrun as [Hrecv Hsub];
    exists r, w'; (split; [done|]); (split; [done|]);
    unfold emitted_policies; rewrite (emitted_one _ _ _ Hrecv); simpl;
    by rewrite ?app_nil_r.
Qed.

(** Nothing is merged or dropped: the identifiers a sent request grants are,
    up to the regrouping by class, the level-filtered identifiers of the
    requested services, one run per requested name, so a service named
    twice is granted twice. *)
Theorem GenerateMulti_grants_each_request g services scope level w r w' :
  GenerateMulti g services scope level w = (r, w') →
  submitted r = true →
  ∃ svcs,
    Forall2 (λ s svc, Services !! lookup_key s = Some svc) services svcs
    ∧ granted (emitted_policies w w')
      ≡ₚ List.map cloudflare.ID (permission_ids (strings.ToLower level) svcs).
Proof.
  intros Hrun Hsub.
  destruct (GenerateMulti_submitted _ _ _ _ _ _ _ Hrun Hsub)
    as (_ & svcs & zp & policies & Hall & Hz & Ha & Hsend).
  exists svcs. split.
  { eapply Forall2_impl; [exact Hall|]. by intros s svc [Hs _]. }
  apply createToken_received in Hsend as [Hrecv _].
  unfold emitted_policies. rewrite (emitted_one _ _ _ Hrecv). simpl.
  rewrite app_nil_r.
  apply GenerateMulti_policy_Ok in Hz as (zn & -> & Hzn).
  apply GenerateMulti_policy_Ok in Ha as (an & -> & Han). simpl.
  rewrite granted_app, (granted_new _ _ _ _ _ Hzn), (granted_new _ _ _ _ _ Han).
  rewrite <- (resolved_account_filter _ _ _ Hall), <- map_app.
  apply Permutation_map. apply permission_ids_split.
Qed.

End Composition.

(** ** Levels and spellings *)

Section Monotone.

Context `{!strings.Unicode}.

Lemma filter_sublist {A} (f : A → bool) (l : list A) :
  List.filter f l `sublist_of` l.
Proof.
  induction l as [|x l IH]; simpl; [constructor|].
  destruct (f x); by constructor.
Qed.

Lemma map_sublist {A B} (f : A → B) (l k : list A) :
  l `sublist_of` k → List.map f l `sublist_of` List.map f k.
Proof. induction 1; simpl; by constructor. Qed.

Lemma filterPermissions_sublist perms level :
  filterPermissions perms level `sublist_of` perms.
Proof.
  destruct (String.eqb_spec level "edit") as [->|Hne].
  - by rewrite filterPermissions_edit.
  - rewrite filterPermissions_other by done. apply filter_sublist.
Qed.

Lemma permission_ids_sublist level svcs :
  permission_ids level svcs `sublist_of` permission_ids "edit" svcs.
Proof.
  induction svcs as [|svc svcs IH]; [constructor|].
  rewrite !permission_ids_cons. apply sublist_app; [|done].
  apply map_sublist. rewrite filterPermissions_edit.
  apply filterPermissions_sublist.
Qed.

Lemma resolves_edit level s svc :
  resolves level s svc → resolves "edit" s svc.
Proof.
  intros [Hs Hperms]. split; [done|]. rewrite filterPermissions_edit.
  intros Hnil. rewrite Hnil in Hperms.
  by destruct (String.eqb_spec level "edit") as [->|?];
    [|rewrite filterPermissions_other in Hperms by done].
Qed.

(** Level "read" asks for no more than level "edit": when a request is sent
    at "read", the same request at "edit" is sent too and has the same
    policies, with the same resources, each read policy granting a
    subsequence of what the edit policy grants. *)
Theorem read_within_edit g services scope level_r level_e w :
  strings.ToLower level_r = "read" →
  strings.ToLower level_e = "edit" →
  submitted (GenerateMulti g services scope level_r w).1 = true →
  submitted (GenerateMulti g services scope level_e w).1 = true
  ∧ Forall2
      (λ pr pe,
         cloudflare.Effect pr = cloudflare.Effect pe
         ∧ cloudflare.Resources pr = cloudflare.Resources pe
         ∧ cloudflare.PermissionGroups pr
           `sublist_of` cloudflare.PermissionGroups pe)
      (emitted_policies w (GenerateMulti g services scope level_r w).2)
      (emitted_policies w (GenerateMulti g services scope level_e w).2).
Proof.
  intros Hr He Hsub.
  destruct (GenerateMulti g services scope level_r w) as [r w'] eqn:Hrun.
  destruct (GenerateMulti_submitted _ _ _ _ _ _ _ Hrun Hsub)
    as (_ & svcs & zp & policies & Hall & Hz & Ha & Hsend).
  assert (valid_level level_e) as Hvalid by (by right).
  assert (Forall2 (resolves (strings.ToLower level_e)) services svcs) as Hall_e.
  { rewrite He. eapply Forall2_impl; [exact Hall|]. intros s svc.
    apply resolves_edit. }
  rewrite (GenerateMulti_resolved g services svcs scope level_e w Hvalid Hall_e).
  apply createToken_received in Hsend as [Hrecv _].
  simpl. unfold emitted_policies at 1. rewrite (emitted_one _ _ _ Hrecv).
  simpl. rewrite app_nil_r. rewrite Hr in Hz, Ha. rewrite He.
  rewrite GenerateMulti_policy_ids in Hz. rewrite GenerateMulti_policy_ids.
  assert (∃ zp_e,
    match List.filter is_zone svcs with
    | [] => Ok []
    | svc0 :: _ =>
        match buildResources g svc0 scope with
        | Ok resources =>
            Ok ([] ++ [cloudflare.mkPolicies "allow" resources
                         (permission_ids "edit" (List.filter is_zone svcs))])
        | Err e => Err e
        end
    end = Ok zp_e
    ∧ Forall2
        (λ pr pe,
           cloudflare.Effect pr = cloudflare.Effect pe
           ∧ cloudflare.Resources pr = cloudflare.Resources pe
           ∧ cloudflare.PermissionGroups pr
             `sublist_of` cloudflare.PermissionGroups pe) zp zp_e)
    as (zp_e & -> & Hzp).
  { destruct (List.filter is_zone svcs) as [|z0 zs].
    - injection Hz as <-. eexists. split; [done|constructor].
    - destruct (buildResources g z0 scope) as [resources|]; [|done].
      injection Hz as <-. eexists. split; [done|]. simpl.
      constructor; [|constructor]. simpl.
      split; [done|]. split; [done|]. apply permission_ids_sublist. }
  rewrite GenerateMulti_policy_ids in Ha. rewrite GenerateMulti_policy_ids.
  destruct (List.filter is_account svcs) as [|a0 accs].
  - injection Ha as <-.
    destruct (createToken g _ zp_e w) as [r_e w_e] eqn:Hrun_e.
    apply createToken_received in Hrun_e as [Hrecv_e Hsub_e].
    split; [done|]. simpl. unfold emitted_policies.
    rewrite (emitted_one _ _ _ Hrecv_e). simpl. by rewrite app_nil_r.
  - destruct (buildResources g a0 scope) as [resources|]; [|done].
    injection Ha as <-.
    destruct (createToken g _ _ w) as [r_e w_e] eqn:Hrun_e.
    apply createToken_received in Hrun_e as [Hrecv_e Hsub_e].
    split; [done|]. simpl. unfold emitted_policies.
    rewrite (emitted_one _ _ _ Hrecv_e). simpl. rewrite app_nil_r.
    apply Forall2_app; [done|]. constructor; [|constructor]. simpl.
    split; [done|]. split; [done|]. apply permission_ids_sublist.
Qed.

Lemma lookup_key_resolved s svc :
  Services !! lookup_key s = Some svc → lookup_key (lookup_key s) = lookup_key s.
Proof.
  intros Hs. apply lookup_key_plain.
  by apply Services_entry_facts in Hs as (? & _).
Qed.

(** Spelling does not matter once the names resolve: with a valid level,
    [GenerateMulti] on the names as typed (any letter case, surrounding
    space) and the level as typed does exactly what it does on the catalog
    keys and the lower-cased level. *)
Theorem GenerateMulti_spelling g services svcs scope level w :
  valid_level level →
  Forall2 (resolves (strings.ToLower level)) services svcs →
  GenerateMulti g services scope level w
  = GenerateMulti g (List.map lookup_key services) scope (strings.ToLower level) w.
Proof.
  intros Hlevel Hall.
  assert (strings.ToLower (strings.ToLower level) = strings.ToLower level) as Hidem.
  { destruct Hlevel as [-> | ->]; by apply ToLower_literal. }
  assert (valid_level (strings.ToLower level)) as Hlevel'.
  { unfold valid_level. rewrite Hidem. exact Hlevel. }
  assert (Forall2 (resolves (strings.ToLower (strings.ToLower level)))
            (List.map lookup_key services) svcs) as Hall'.
  { rewrite Hidem. clear Hlevel Hlevel' Hidem.
    induction Hall as [|s svc services svcs [Hs Hperms] _ IH]; simpl;
      constructor; [|done].
    split; [|done]. by rewrite (lookup_key_resolved s svc). }
  rewrite (GenerateMulti_resolved g services svcs scope level w Hlevel Hall).
  rewrite (GenerateMulti_resolved g _ svcs scope _ w Hlevel' Hall').
  rewrite Hidem.
  assert (List.map lookup_key (List.map lookup_key services)
          = List.map lookup_key services) as ->; [|done].
  clear Hall'. induction Hall as [|s svc services svcs [Hs _] _ IH]; simpl; [done|].
  by rewrite IH, (lookup_key_resolved s svc).
Qed.

End Monotone.

(** ** More on god mode *)

Section GodModeMore.

Context `{!strings.Unicode}.

Lemma deriveScope_values scopes :
  deriveScope scopes = "" ∨ deriveScope scopes = "zone"
  ∨ deriveScope scopes = "account".
Proof.
  induction scopes as [|s scopes IH]; simpl; [auto|].
  destruct (strings.Contains s "zone"); [auto|].
  destruct (strings.Contains s "account"); auto.
Qed.

(** [deriveScope] has three results, the empty one exactly when no hint
    contains "zone" or "account"; and the first class-indicating hint
    decides: hints after it, in the same or a later list, change nothing. *)
Theorem deriveScope_first_decides :
  (∀ scopes,
     deriveScope scopes = "" ∨ deriveScope scopes = "zone"
     ∨ deriveScope scopes = "account")
  ∧ (∀ scopes,
       deriveScope scopes = "" ↔ Forall (λ s, class_hint s = false) scopes)
  ∧ (∀ before after,
       deriveScope (before ++ after)
       = if String.eqb (deriveScope before) "" then deriveScope after
         else deriveScope before).
Proof.
  split; [apply deriveScope_values|]. split.
  - intros scopes. split; [|apply deriveScope_no_hint].
    induction scopes as [|s scopes IH]; simpl; [constructor|].
    destruct (strings.Contains s "zone") eqn:Hz; [done|].
    destruct (strings.Contains s "account") eqn:Ha; [done|].
    intros Hrest. constructor; [|auto].
    unfold class_hint. by rewrite Hz, Ha.
  - intros before after. induction before as [|s before IH]; simpl; [done|].
    destruct (strings.Contains s "zone"); [done|].
    by destruct (strings.Contains s "account").
Qed.

(** [GodMode] sends its request exactly when the generator has an account
    identifier and the fetch of the permission groups came back decoded with
    success set; the request is named "godmode". *)
Theorem GodMode_sent_iff g w :
  (submitted (GodMode g w).1 = true
   ↔ accountID g ≠ ""
     ∧ ∃ statusCode perms,
         permission_groups w ("Bearer " +:+ apiToken g)
         = Decoded true statusCode perms)
  ∧ (submitted (GodMode g w).1 = true →
     ∃ policies,
       emitted w (GodMode g w).2 = [cloudflare.mkToken "godmode" policies]).
Proof.
  unfold GodMode.
  destruct (String.eqb_spec (accountID g) "") as [Hacc|Hacc].
  { simpl. split; [split; [done|by intros [? _]]|done]. }
  unfold bind, fetchPermissionGroups.
  destruct (permission_groups w _) as [cause|cause|[] statusCode perms];
    simpl; try (split; [split; [done|by intros (_ & ? & ? & ?)]|done]).
  destruct (GodMode_collect perms) as [zonePerms accountPerms].
  destruct (createToken g "godmode" _ w) as [r w'] eqn:Hrun.
  apply createToken_received in Hrun as [Hrecv Hsub]. simpl. split.
  - split; [|done]. intros _. split; [done|]. eauto.
  - intros _. eexists. by apply emitted_one.
Qed.

(** The policies of the god-mode request: the zone policy over all zones
    when some fetched group is kept as zone-scoped, then the account policy
    for the generator's account when some is kept as account-scoped, each
    granting its groups in fetched order.  When no fetched group is kept the
    request is still sent, with no policy at all. *)
Theorem GodMode_policy_list g w statusCode perms :
  accountID g ≠ "" →
  permission_groups w ("Bearer " +:+ apiToken g)
  = Decoded true statusCode perms →
  emitted_policies w (GodMode g w).2
  = match bucket "zone" perms with
    | [] => []
    | _ :: _ =>
        [cloudflare.mkPolicies "allow"
           {["com.cloudflare.api.account.zone.*" := "*"]}
           (List.map (λ p, cloudflare.mkPermissionGroups (permissionGroup.ID p))
              (bucket "zone" perms))]
    end
    ++
    match bucket "account" perms with
    | [] => []
    | _ :: _ =>
        [cloudflare.mkPolicies "allow"
           {["com.cloudflare.api.account." +:+ accountID g := "*"]}
           (List.map (λ p, cloudflare.mkPermissionGroups (permissionGroup.ID p))
              (bucket "account" perms))]
    end.
Proof.
  intros Hacc Hreply.
  destruct (GodMode g w) as [r w'] eqn:Hrun. cbn [snd].
  rewrite (GodMode_fetched g w r w' statusCode perms Hacc Hreply Hrun).
  unfold GodMode_policies.
  destruct (bucket "zone" perms), (bucket "account" perms); reflexivity.
Qed.

End GodModeMore.

(** ** The stand-alone [Generate] by cases *)

Section LegacyCases.

Context `{!strings.Unicode}.

(** The stand-alone [Generate] looks its argument up lower-cased but not
    trimmed.  An argument that is not found gives the unknown-service error.
    One that is found gives the missing-account error of [buildResources],
    or one request named "<service>-<scope>" with a single policy that
    grants every permission of the service in catalog order. *)
Theorem Legacy_Generate_cases (gl : Legacy.Generator) service scope w :
  (Services !! strings.ToLower service = None →
   Legacy.Generate gl service scope w = (Err (ErrUnknownService service), w))
  ∧ (∀ svc,
       Services !! strings.ToLower service = Some svc →
       (is_account svc = true ∧ strings.ToLower scope = "all"
        ∧ Legacy.accountID gl = "" →
        Legacy.Generate gl service scope w
        = (Err (ErrAccountIDRequired (Service.Name svc)), w))
       ∧ (is_zone svc = true ∨ strings.ToLower scope ≠ "all"
          ∨ Legacy.accountID gl ≠ "" →
          ∃ r w' resources,
            Legacy.Generate gl service scope w = (r, w')
            ∧ submitted r = true
            ∧ Legacy.buildResources gl svc scope = Ok resources
            ∧ emitted w w'
              = [cloudflare.mkToken (Service.Name svc +:+ "-" +:+ scope)
                   [cloudflare.mkPolicies "allow" resources
                      (List.map
                         (λ p, cloudflare.mkPermissionGroups (Permission.ID p))
                         (Service.Permissions svc))]])).
Proof.
  split.
  - intros Hs. unfold Legacy.Generate. by rewrite Hs.
  - intros svc Hs.
    rewrite (Legacy_Generate_known gl demo_generator service svc scope w Hs).
    pose proof (Services_entry_facts _ _ Hs) as (_ & _ & Hscope & _).
    split.
    + intros (Hacc & Hall & Hid). unfold Legacy.buildResources.
      apply is_account_not_zone in Hacc. unfold is_zone in Hacc.
      by rewrite Hall, Hacc, Hid.
    + intros Hok.
      assert (∃ resources, Legacy.buildResources gl svc scope = Ok resources)
        as [resources Hb].
      { unfold Legacy.buildResources.
        destruct (String.eqb_spec (strings.ToLower scope) "all") as [Hall|Hall];
          [|destruct (String.eqb (Service.ResourceScope svc) ResourceScopeZone);
            eauto].
        destruct (String.eqb (Service.ResourceScope svc) ResourceScopeZone)
          eqn:Hz; [eauto|].
        destruct (String.eqb_spec (Legacy.accountID gl) "") as [Hid|Hid]; [|eauto].
        destruct Hok as [Hzone|[?|?]]; [|done|done].
        unfold is_zone in Hzone. congruence. }
      rewrite Hb.
      destruct (createToken demo_generator _ _ w) as [r w'] eqn:Hrun.
      apply createToken_received in Hrun as [Hrecv Hsub].
      exists r, w', resources. do 3 (split; [done|]). by apply emitted_one.
Qed.

End LegacyCases.

(** ** The service methods *)

Section MethodsFacts.

Context `{!strings.Unicode}.

Lemma Services_lookup_In k svc :
  Services !! k = Some svc → In (k, svc) Services_entries.
Proof.
  intros Hk. apply list_elem_of_In.
  exact (elem_of_list_to_map_2 Services_entries k svc Hk).
Qed.

Lemma Generate_known_key g k svc scope w :
  Services !! k = Some svc →
  submitted (Generate g k scope w).1 = true
  ∨ (is_account svc = true ∧ strings.ToLower scope = "all" ∧ accountID g = ""
     ∧ Generate g k scope w = (Err (ErrAccountIDRequired k), w)).
Proof.
  intros Hk. unfold Generate.
  pose proof (Services_entry_facts _ _ Hk) as (Hplain & Hname & Hscope & _).
  rewrite (GenerateMulti_single_edit g k svc scope w)
    by (by rewrite lookup_key_plain).
  destruct Hscope as [Hz|Ha].
  - rewrite buildResources_zone by (unfold is_zone; by rewrite Hz).
    destruct (createToken g _ _ w) as [r w'] eqn:Hrun.
    apply createToken_received in Hrun as [_ ?]. by left.
  - rewrite buildResources_not_zone by (unfold is_zone; by rewrite Ha).
    destruct (String.eqb_spec (strings.ToLower scope) "all") as [Hall|Hall];
      [destruct (String.eqb_spec (accountID g) "") as [Hid|Hid]|].
    + right. rewrite Hname. unfold is_account. by rewrite Ha.
    + destruct (createToken g _ _ w) as [r w'] eqn:Hrun.
      apply createToken_received in Hrun as [_ ?]. by left.
    + destruct (createToken g _ _ w) as [r w'] eqn:Hrun.
      apply createToken_received in Hrun as [_ ?]. by left.
Qed.

Lemma method_keys_catalog k :
  In k method_keys ↔ is_Some (Services !! k).
Proof.
  split.
  - intros Hin. simpl in Hin.
    repeat destruct Hin as [<-|Hin]; try done; vm_compute; eauto.
  - intros [svc Hk]. apply Services_lookup_In in Hk. simpl in Hk.
    repeat destruct Hk as [[= <- <-]|Hk]; try done; simpl; tauto.
Qed.

(** The eighteen service methods name exactly the keys of the catalog, one
    method per key.  So none of them can fail on the lookup or on the level:
    a method either sends its request or, for an account-scoped service
    with scope "all" and no account identifier, returns the missing-account
    error. *)
Theorem service_methods_cover_catalog :
  Forall2 (λ m k, ∀ g scope, m g scope = GenerateMulti g [k] scope "edit")
    service_methods method_keys
  ∧ NoDup method_keys
  ∧ (∀ k, In k method_keys ↔ is_Some (Services !! k))
  ∧ Forall
      (λ m, ∀ g scope w,
         submitted (m g scope w).1 = true
         ∨ (strings.ToLower scope = "all" ∧ accountID g = ""
            ∧ ∃ name, m g scope w = (Err (ErrAccountIDRequired name), w)))
      service_methods.
Proof.
  assert (∀ (m : Generator → string → M string) k,
            is_Some (Services !! k) →
            (∀ g scope, m g scope = Generate g k scope) →
            ∀ g scope w,
              submitted (m g scope w).1 = true
              ∨ (strings.ToLower scope = "all" ∧ accountID g = ""
                 ∧ ∃ name, m g scope w = (Err (ErrAccountIDRequired name), w)))
    as Hmethod.
  { intros m k [svc Hk] Hm g scope w. rewrite Hm.
    destruct (Generate_known_key g k svc scope w Hk)
      as [?|(_ & ? & ? & ?)]; [by left|right; eauto]. }
  split; [repeat constructor|]. split.
  { apply (bool_decide_unpack _). vm_compute. exact I. }
  split; [apply method_keys_catalog|].
  unfold service_methods.
  repeat (apply Forall_cons; split;
          [eapply Hmethod; [|intros; reflexivity]; apply method_keys_catalog;
           simpl; tauto|]).
  apply Forall_nil_2.
Qed.

End MethodsFacts.

(** ** [ListServices] *)

Section Listing.

Lemma fold_left_snoc {A} (l acc : list A) :
  fold_left (λ acc x, acc ++ [x]) l acc = acc ++ l.
Proof.
  revert acc. induction l as [|x l IH]; intros acc; simpl.
  - by rewrite app_nil_r.
  - by rewrite IH, <- app_assoc.
Qed.

Lemma Services_entries_NoDup : NoDup (Services_entries.*1).
Proof. apply (bool_decide_unpack _). vm_compute. exact I. Qed.

Lemma Services_map_to_list : map_to_list Services ≡ₚ Services_entries.
Proof. exact (map_to_list_to_map Services_entries Services_entries_NoDup). Qed.

Lemma Services_entries_sorted_catalog : Services_entries.*2 ≡ₚ sorted_catalog.
Proof. apply (bool_decide_unpack _). vm_compute. exact I. Qed.

Lemma Services_values_sorted_catalog :
  (map_to_list Services).*2 ≡ₚ sorted_catalog.
Proof.
  etrans; [apply fmap_Permutation, Services_map_to_list|].
  apply Services_entries_sorted_catalog.
Qed.

Lemma sorted_catalog_rank :
  Forall (λ svc, sorted_catalog !! name_rank svc = Some svc) sorted_catalog.
Proof. apply (bool_decide_unpack _). vm_compute. exact I. Qed.

Lemma sorted_catalog_less :
  forallb
    (λ a, forallb
            (λ b, Bool.eqb (negb (ListServices_less b a))
                    (name_rank a <=? name_rank b)%nat)
            sorted_catalog)
    sorted_catalog = true.
Proof. vm_compute. reflexivity. Qed.

Lemma sorted_catalog_order a b :
  a ∈ sorted_catalog → b ∈ sorted_catalog →
  ListServices_less b a = false → name_rank a ≤ name_rank b.
Proof.
  intros Ha%list_elem_of_In Hb%list_elem_of_In Hless.
  pose proof sorted_catalog_less as Hall.
  rewrite forallb_forall in Hall. specialize (Hall a Ha).
  rewrite forallb_forall in Hall. specialize (Hall b Hb).
  rewrite Hless in Hall. simpl in Hall.
  destruct (Nat.leb_spec (name_rank a) (name_rank b)); [done|discriminate].
Qed.

Lemma Sorted_by_rank l :
  Forall (λ svc, svc ∈ sorted_catalog) l →
  Sorted (λ a b, ListServices_less b a = false) l →
  Sorted (λ a b, name_rank a ≤ name_rank b) l.
Proof.
  intros Hin Hsorted. induction Hsorted as [|a l _ IH Hhd]; [constructor|].
  apply Forall_cons in Hin as [Ha Hl]. constructor; [by apply IH|].
  destruct Hhd as [|b l Hab]; constructor.
  apply Forall_cons in Hl as [Hb _]. by apply sorted_catalog_order.
Qed.

Lemma sorted_catalog_Sorted :
  StronglySorted (λ a b, name_rank a ≤ name_rank b) sorted_catalog.
Proof.
  apply Sorted_StronglySorted; [intros a b c; lia|].
  apply (Sorted_by_rank sorted_catalog).
  - apply Forall_forall. auto.
  - apply (bool_decide_unpack _). vm_compute. exact I.
Qed.

(** The list [ListServices] returns. *)
Lemma ListServices_sorted_catalog range_Services sort_Slice :
  range_Services ≡ₚ (map_to_list Services).*2 →
  (∀ l, sort_Slice ListServices_less l ≡ₚ l) →
  (∀ l, Sorted (λ a b, ListServices_less b a = false)
          (sort_Slice ListServices_less l)) →
  ListServices range_Services sort_Slice = sorted_catalog
  ∧ List.map Service.Name sorted_catalog = sorted_names
  ∧ Sorted (λ a b, ListServices_less a b = true) sorted_catalog.
Proof.
  intros Hrange Hperm Hsorted.
  split; [|split; [vm_compute; reflexivity|]].
  2: { apply (bool_decide_unpack _). vm_compute. exact I. }
  unfold ListServices.
  rewrite (fold_left_snoc range_Services []). simpl.
  set (result := sort_Slice ListServices_less range_Services).
  assert (result ≡ₚ sorted_catalog) as Hresult.
  { unfold result. by rewrite Hperm, Hrange, Services_values_sorted_catalog. }
  assert (Forall (λ svc, svc ∈ sorted_catalog) result) as Hin.
  { apply Forall_forall. intros svc Hsvc. by rewrite <- Hresult. }
  apply (StronglySorted_unique_strong (λ a b, name_rank a ≤ name_rank b));
    [| |apply sorted_catalog_Sorted|done].
  - intros a b Ha Hb Hab Hba. rewrite Hresult in Ha.
    pose proof sorted_catalog_rank as Hrank. rewrite Forall_forall in Hrank.
    pose proof (Hrank a Ha) as Hra. pose proof (Hrank b Hb) as Hrb.
    assert (name_rank a = name_rank b) as Heq by lia.
    rewrite Heq in Hra. congruence.
  - apply Sorted_StronglySorted; [intros a b c; lia|].
    apply Sorted_by_rank; [done|]. apply Hsorted.
Qed.

(** [ListServices] returns one and the same list whatever order the
    iteration over the map takes and whichever correct algorithm
    [sort.Slice] runs: each service of the catalog once, in strictly
    ascending order of its name. *)
Theorem ListServices_deterministic range_Services sort_Slice :
  range_Services ≡ₚ (map_to_list Services).*2 →
  (∀ l, sort_Slice ListServices_less l ≡ₚ l) →
  (∀ l, Sorted (λ a b, ListServices_less b a = false)
          (sort_Slice ListServices_less l)) →
  ListServices range_Services sort_Slice = sorted_catalog
  ∧ List.map Service.Name sorted_catalog = sorted_names
  ∧ Sorted (λ a b, ListServices_less a b = true) sorted_catalog.
Proof. apply ListServices_sorted_catalog. Qed.

End Listing.

(** ** The further theorems at concrete requests *)

Lemma ServiceLevels_offered_witness :
  In "read" (ServiceLevels
               (Service.mk "dns" "DNS records management" ResourceScopeZone
                  [ Permission.mk "82e64a83756745bbbb1c9c2701bf816b" "DNS Read";
                    Permission.mk "4755a26eedb94da69e1066d98aa820be" "DNS Write" ])).
Proof.
  pose proof (ServiceLevels_offered
                (Service.mk "dns" "DNS records management" ResourceScopeZone
                   [ Permission.mk "82e64a83756745bbbb1c9c2701bf816b" "DNS Read";
                     Permission.mk "4755a26eedb94da69e1066d98aa820be" "DNS Write" ]))
    as [_ Hlevels].
  apply (Hlevels "read").
  - left. reflexivity.
  - discriminate.
  - vm_compute. discriminate.
Defined.

Lemma GenerateMulti_token_name_witness :
  ∃ policies,
    emitted (idle [])
      (GenerateMulti demo_generator [" DNS"; "Workers "] "Zone-1" "Read" (idle [])).2
    = [cloudflare.mkToken "dns-workers-Zone-1-read" policies].
Proof.
  destruct (GenerateMulti_token_name demo_generator [" DNS"; "Workers "] "Zone-1"
              "Read" (idle [])
              (GenerateMulti demo_generator [" DNS"; "Workers "] "Zone-1" "Read"
                 (idle [])).1
              (GenerateMulti demo_generator [" DNS"; "Workers "] "Zone-1" "Read"
                 (idle [])).2)
    as [policies Hname].
  - vm_compute. reflexivity.
  - vm_compute. reflexivity.
  - exists policies. rewrite Hname. vm_compute. reflexivity.
Defined.

Lemma GenerateMulti_account_required_witness :
  GenerateMulti bare_generator ["dns"; "kv"; "workers"] "ALL" "edit" (idle [])
  = (Err (ErrAccountIDRequired "kv"), idle []).
Proof.
  let svcs := eval vm_compute in
    (omap (λ k, Services !! k) ["dns"; "kv"; "workers"]) in
  destruct (GenerateMulti_account_required bare_generator ["dns"; "kv"; "workers"]
              svcs "ALL" "edit" (idle [])) as [Hfail _].
  - right. vm_compute. reflexivity.
  - repeat (constructor;
            [split; [vm_compute; reflexivity | vm_compute; discriminate]|]).
    constructor.
  - eapply eq_trans;
      [ eapply Hfail;
        [vm_compute; reflexivity | vm_compute; reflexivity | reflexivity]
      | reflexivity ].
Defined.

Lemma GenerateMulti_specific_scope_witness :
  emitted_policies (idle [])
    (GenerateMulti bare_generator ["dns"; "kv"] "abc123" "read" (idle [])).2
  = [cloudflare.mkPolicies "allow"
       {["com.cloudflare.api.account.zone.abc123" := "*"]}
       [cloudflare.mkPermissionGroups "82e64a83756745bbbb1c9c2701bf816b"];
     cloudflare.mkPolicies "allow"
       {["com.cloudflare.api.account.abc123" := "*"]}
       [cloudflare.mkPermissionGroups "8b47d2786a534c08a1f94ee8f9f599ef"]].
Proof.
  let svcs := eval vm_compute in (omap (λ k, Services !! k) ["dns"; "kv"]) in
  destruct (GenerateMulti_specific_scope bare_generator ["dns"; "kv"] svcs "abc123"
              "read" (idle []))
    as (r & w' & Hrun & _ & Hpolicies).
  - left. vm_compute. reflexivity.
  - repeat (constructor;
            [split; [vm_compute; reflexivity | vm_compute; discriminate]|]).
    constructor.
  - vm_compute. discriminate.
  - rewrite Hrun. simpl. rewrite Hpolicies. vm_compute. reflexivity.
Defined.

Lemma GenerateMulti_grants_each_request_witness :
  granted
    (emitted_policies (idle [])
       (GenerateMulti demo_generator ["cache"; "cache"] "all" "edit" (idle [])).2)
  ≡ₚ ["e17beae8b8cb423a99b1730f21238bed"; "e17beae8b8cb423a99b1730f21238bed"].
Proof.
  destruct (GenerateMulti_grants_each_request demo_generator ["cache"; "cache"]
              "all" "edit" (idle [])
              (GenerateMulti demo_generator ["cache"; "cache"] "all" "edit" (idle [])).1
              (GenerateMulti demo_generator ["cache"; "cache"] "all" "edit" (idle [])).2)
    as (svcs & Hall & Hperm).
  - vm_compute. reflexivity.
  - vm_compute. reflexivity.
  - vm_compute. reflexivity.
Defined.

Lemma read_within_edit_witness :
  submitted
    (GenerateMulti demo_generator ["dns"; "workers"] "all" "EDIT" (idle [])).1 = true.
Proof.
  apply (read_within_edit demo_generator ["dns"; "workers"] "all" "Read" "EDIT"
           (idle [])).
  - vm_compute. reflexivity.
  - vm_compute. reflexivity.
  - vm_compute. reflexivity.
Defined.

Lemma GenerateMulti_spelling_witness :
  GenerateMulti demo_generator [" DNS "; "KV"] "all" "Read" (idle [])
  = GenerateMulti demo_generator ["dns"; "kv"] "all" "read" (idle []).
Proof.
  let svcs := eval vm_compute in (omap (λ k, Services !! k) ["dns"; "kv"]) in
  rewrite (GenerateMulti_spelling demo_generator [" DNS "; "KV"] svcs "all" "Read"
             (idle [])).
  - reflexivity.
  - left. vm_compute. reflexivity.
  - repeat (constructor;
            [split; [vm_compute; reflexivity | vm_compute; discriminate]|]).
    constructor.
Defined.

Lemma GodMode_policy_list_witness :
  emitted_policies (idle demo_groups) (GodMode demo_generator (idle demo_groups)).2
  = [cloudflare.mkPolicies "allow" {["com.cloudflare.api.account.zone.*" := "*"]}
       [cloudflare.mkPermissionGroups "4755a26eedb94da69e1066d98aa820be"];
     cloudflare.mkPolicies "allow" {["com.cloudflare.api.account.acc1" := "*"]}
       [cloudflare.mkPermissionGroups "e086da7e2179491d91ee5f35b3ca210a"]].
Proof.
  rewrite (GodMode_policy_list demo_generator (idle demo_groups) 200 demo_groups).
  - vm_compute. reflexivity.
  - vm_compute. discriminate.
  - reflexivity.
Defined.

Lemma Legacy_Generate_cases_witness :
  Legacy.Generate demo_legacy "Nosuch" "all" (idle [])
  = (Err (ErrUnknownService "Nosuch"), idle []).
Proof.
  apply (Legacy_Generate_cases demo_legacy "Nosuch" "all" (idle [])).
  vm_compute. reflexivity.
Defined.

Lemma ListServices_less_total :
  Total (λ a b, ListServices_less b a = false).
Proof.
  intros a b. unfold ListServices_less, String.ltb.
  rewrite (String.compare_antisym (Service.Name b) (Service.Name a)).
  destruct (String.compare (Service.Name a) (Service.Name b)); simpl; auto.
Qed.

Lemma ListServices_deterministic_witness :
  ListServices (map_to_list Services).*2 merge_sort_Slice = sorted_catalog.
Proof.
  apply (ListServices_deterministic (map_to_list Services).*2 merge_sort_Slice).
  - reflexivity.
  - intros l. apply merge_sort_Permutation.
  - intros l.
    apply (@Sorted_merge_sort _ (λ a b, ListServices_less b a = false) _
             ListServices_less_total).
Defined.

Example ListServices_runs :
  List.map Service.Name (ListServices (map_to_list Services).*2 merge_sort_Slice)
  = [ "ai"; "cache"; "d1"; "dns"; "firewall"; "images"; "kv"; "loadbalancer";
      "pagerules"; "pages"; "queues"; "r2"; "ssl"; "stream"; "tunnels"; "waf";
      "workers"; "zone" ].
Proof. vm_compute. reflexivity. Qed.

(** ** Numbers typed at the prompt *)

Section Numbers.

Local Open Scope Z_scope.

Lemma digits_value_uint d acc :
  0 ≤ acc →
  digits_value (DecimalString.NilEmpty.string_of_uint d) acc
  = Some (Z.of_nat (Nat.of_uint_acc d (Z.to_nat acc))).
Proof.
  revert acc. induction d as [|d IH|d IH|d IH|d IH|d IH|d IH|d IH|d IH|d IH|d IH];
    intros acc Hacc; cbn [DecimalString.NilEmpty.string_of_uint digits_value
                            Nat.of_uint_acc].
  { by rewrite Z2Nat.id. }
  all: change (is_digit _) with true; cbv iota.
  all: rewrite IH by (vm_compute (Z.of_nat (nat_of_ascii _)); lia).
  all: do 3 f_equal.
  all: rewrite Nat.tail_mul_spec.
  all: vm_compute (Z.of_nat (nat_of_ascii _)); lia.
Qed.

Lemma to_uint_not_Nil n : Nat.to_uint n ≠ Decimal.Nil.
Proof.
  rewrite <- (DecimalNat.Unsigned.of_to n) at 1.
  rewrite DecimalNat.Unsigned.to_of. apply DecimalFacts.unorm_nonnil.
Qed.

(** [Atoi] reads back what [%d] prints. *)
Lemma Atoi_format_d bits n :
  Z.of_nat n ≤ 2 ^ (bits - 1) - 1 →
  Atoi bits (format_d n) = Some (Z.of_nat n).
Proof.
  intros Hfit. unfold format_d, DecimalString.NilZero.string_of_uint.
  pose proof (to_uint_not_Nil n) as Hnil.
  pose proof (digits_value_uint (Nat.to_uint n) 0 (Z.le_refl 0)) as Hdigits.
  change (Z.to_nat 0) with 0%nat in Hdigits.
  change (Nat.of_uint_acc (Nat.to_uint n) 0) with (Nat.of_uint (Nat.to_uint n))
    in Hdigits.
  rewrite DecimalNat.Unsigned.of_to in Hdigits.
  assert (0 ≤ 2 ^ (bits - 1)) as Hpow by (apply Z.pow_nonneg; lia).
  destruct (Nat.to_uint n) as [|d|d|d|d|d|d|d|d|d|d]; [done|..];
    cbn [DecimalString.NilEmpty.string_of_uint] in *;
    unfold Atoi; change (Ascii.eqb _ "-") with false;
    change (Ascii.eqb _ "+") with false; cbv iota; cbn [orb];
    rewrite Hdigits; cbv iota;
    (destruct (Z.leb_spec (- 2 ^ (bits - 1)) (Z.of_nat n)); [|lia]);
    (destruct (Z.leb_spec (Z.of_nat n) (2 ^ (bits - 1) - 1)); [|lia]);
    reflexivity.
Qed.

Lemma select_entry_format_d bits ids k :
  Z.of_nat (length ids) ≤ 2 ^ (bits - 1) - 1 →
  (k < length ids)%nat →
  select_entry bits ids (format_d (k + 1)) = nth k ids "".
Proof.
  intros Hfit Hk. unfold select_entry.
  rewrite Atoi_format_d by lia.
  destruct (Z.leb_spec 1 (Z.of_nat (k + 1))); [|lia].
  destruct (Z.leb_spec (Z.of_nat (k + 1)) (Z.of_nat (length ids))); [|lia].
  simpl. replace (Z.to_nat (Z.of_nat (k + 1) - 1)) with k by lia.
  by apply nth_indep.
Qed.

Lemma format_d_not_empty n : String.eqb (format_d n) "" = false.
Proof.
  unfold format_d, DecimalString.NilZero.string_of_uint.
  pose proof (to_uint_not_Nil n) as Hnil.
  by destruct (Nat.to_uint n).
Qed.

(** The number printed in front of a listed entry selects that entry, and
    whatever is typed, the result is the input itself or the identifier of a
    listed entry. *)
Theorem select_entry_by_number bits ids :
  (∀ k,
     Z.of_nat (length ids) ≤ 2 ^ (bits - 1) - 1 →
     (k < length ids)%nat →
     select_entry bits ids (format_d (k + 1)) = nth k ids "")
  ∧ (∀ input,
       select_entry bits ids input = input
       ∨ In (select_entry bits ids input) ids)
  ∧ (∀ input, Atoi bits input = None → select_entry bits ids input = input).
Proof.
  split; [|split].
  - intros k Hfit Hk. by apply select_entry_format_d.
  - intros input. unfold select_entry.
    destruct (Atoi bits input) as [n|]; [|by left].
    destruct (Z.leb_spec 1 n); [|by left].
    destruct (Z.leb_spec n (Z.of_nat (length ids))); [|by left].
    right. simpl. apply nth_In. lia.
  - intros input Hnone. unfold select_entry. by rewrite Hnone.
Qed.

End Numbers.

(** ** The [init] command *)

Section Init.

Context `{!strings.Unicode}.

Lemma only_io_refl h : only_io h h.
Proof. by repeat split. Qed.

Lemma only_io_trans h1 h2 h3 : only_io h1 h2 → only_io h2 h3 → only_io h1 h3.
Proof.
  unfold only_io.
  intros (? & ? & ? & ? & ? & ? & ? & ? & ?) (? & ? & ? & ? & ? & ? & ? & ? & ?).
  repeat split; congruence.
Qed.

Lemma only_io_print o h : only_io h (print o h).
Proof. by repeat split. Qed.

Lemma only_io_set_stdin rest h : only_io h (set_stdin rest h).
Proof. by repeat split. Qed.

Lemma only_io_readLine h line h' : readLine h = (line, h') → only_io h h'.
Proof.
  unfold readLine. destruct (ReadString_nl (stdin h)) as [l rest].
  intros [= _ <-]. apply only_io_set_stdin.
Qed.

Lemma only_io_print_entries i entries h : only_io h (print_entries i entries h).
Proof.
  revert i h. induction entries as [|[name id] entries IH]; intros i h; simpl.
  - apply only_io_refl.
  - eapply only_io_trans; [apply only_io_print|apply IH].
Qed.

Lemma only_io_discover_account apiToken h id h' :
  discover_account apiToken h = (id, h') → only_io h h'.
Proof.
  unfold discover_account.
  destruct (Accounts_reply h apiToken) as [cause|[|a accounts]].
  1,2: intros Hread%only_io_readLine;
    (eapply only_io_trans; [apply only_io_print|exact Hread]).
  destruct (readLine _) as [input h1] eqn:Hread. intros [= _ <-].
  apply only_io_readLine in Hread.
  eapply only_io_trans; [|exact Hread].
  eapply only_io_trans; [|apply only_io_print].
  eapply only_io_trans; [apply only_io_print|apply only_io_print_entries].
Qed.

Lemma only_io_discover_zone apiToken h id h' :
  discover_zone apiToken h = (id, h') → only_io h h'.
Proof.
  unfold discover_zone.
  destruct (ListZones_reply h apiToken) as [cause|[|z zones]].
  1,2: intros Hread%only_io_readLine;
    (eapply only_io_trans; [apply only_io_print|exact Hread]).
  destruct (readLine _) as [input h1] eqn:Hread.
  apply only_io_readLine in Hread.
  assert (only_io h h1) as Hio.
  { eapply only_io_trans; [|exact Hread].
    eapply only_io_trans; [|apply only_io_print].
    eapply only_io_trans; [apply only_io_print|apply only_io_print_entries]. }
  by destruct (String.eqb input ""); intros [= _ <-].
Qed.

(** Every run of [runInit], by what it returns. *)
Lemma runInit_outcome h r h' :
  runInit h = (r, h') →
  platform h' = platform h
  ∧ match r with
    | None =>
        ∃ cfg,
          saved h' = saved h ++ [cfg]
          ∧ APIToken cfg ≠ "" ∧ AccountID cfg ≠ ""
          ∧ NewWithAPIToken_reply h (APIToken cfg) = None
          ∧ VerifyAPIToken_reply h (APIToken cfg) = None
    | Some _ => saved h' = saved h
    end.
Proof.
  unfold runInit.
  destruct (readLine _) as [apiToken h1] eqn:Hread.
  apply only_io_readLine in Hread.
  assert (only_io h h1) as Hio1
    by (eapply only_io_trans; [apply only_io_print|exact Hread]).
  clear Hread.
  pose proof Hio1 as (_ & Hsaved1 & Hplat1 & _ & _ & Hnew1 & Hverify1 & _).
  destruct (String.eqb_spec apiToken "") as [|Htoken];
    [intros [= <- <-]; done|].
  rewrite Hnew1, Hverify1.
  destruct (NewWithAPIToken_reply h apiToken) eqn:Hnew;
    [intros [= <- <-]; done|].
  destruct (VerifyAPIToken_reply h apiToken) eqn:Hverify;
    [intros [= <- <-]; done|].
  destruct (discover_account apiToken _) as [accountID h2] eqn:Hacc.
  apply only_io_discover_account in Hacc.
  assert (only_io h h2) as Hio2.
  { eapply only_io_trans; [exact Hio1|].
    eapply only_io_trans; [apply only_io_print|exact Hacc]. }
  clear Hacc.
  pose proof Hio2 as (_ & Hsaved2 & Hplat2 & _).
  destruct (String.eqb_spec accountID "") as [|Haccount];
    [intros [= <- <-]; done|].
  destruct (discover_zone apiToken h2) as [zoneID h3] eqn:Hzone.
  apply only_io_discover_zone in Hzone.
  assert (only_io h h3) as Hio3 by (eapply only_io_trans; [exact Hio2|exact Hzone]).
  clear Hzone.
  pose proof Hio3 as (_ & Hsaved3 & Hplat3 & _).
  unfold SaveConfig.
  destruct (SaveConfig_reply h3 _) as [cause|]; intros [= <- <-]; simpl.
  - done.
  - split; [done|]. eexists. split; [by rewrite Hsaved3|]. done.
Qed.

(** What [init] leaves behind.  It never asks the platform for a token.  It
    saves a configuration only on success, exactly one, and that one has a
    token that is not empty and was accepted by [NewWithAPIToken] and
    [VerifyAPIToken], and an account identifier that is not empty; when it
    returns an error nothing was saved. *)
Theorem runInit_saves_checked_config h r h' :
  runInit h = (r, h') →
  platform h' = platform h
  ∧ match r with
    | None =>
        ∃ cfg,
          saved h' = saved h ++ [cfg]
          ∧ APIToken cfg ≠ "" ∧ AccountID cfg ≠ ""
          ∧ NewWithAPIToken_reply h (APIToken cfg) = None
          ∧ VerifyAPIToken_reply h (APIToken cfg) = None
    | Some _ => saved h' = saved h
    end.
Proof. apply runInit_outcome. Qed.

End Init.

(** ** From [init] to [generate] *)

Section AfterInit.

Context `{!strings.Unicode}.

Lemma GenerateMulti_lookup_Err_kind level services acc e :
  GenerateMulti_lookup level services acc = Err e →
  (∃ s, e = ErrUnknownService s)
  ∨ (∃ name lv available, e = ErrUnsupportedLevel name lv available).
Proof.
  revert acc. induction services as [|s services IH]; intros acc;
    cbn [GenerateMulti_lookup]; [done|].
  destruct (Services !! _) as [svc|]; [|intros [= <-]; eauto].
  destruct (length _ =? 0)%nat; [intros [= <-]; eauto 6|]. apply IH.
Qed.

Lemma buildResources_with_account g svc scope :
  accountID g ≠ "" → ∃ resources, buildResources g svc scope = Ok resources.
Proof.
  intros Hacc. unfold buildResources.
  destruct (String.eqb_spec (accountID g) ""); [done|].
  repeat match goal with
         | |- context [if ?c then _ else _] => destruct c
         end; eauto.
Qed.

Lemma GenerateMulti_policy_with_account g group scope level policies :
  accountID g ≠ "" →
  ∃ out, GenerateMulti_policy g group scope level policies = Ok out.
Proof.
  intros Hacc. destruct group as [|svc0 group]; simpl; [eauto|].
  destruct (buildResources_with_account g svc0 scope Hacc) as [resources ->].
  eauto.
Qed.

Lemma GenerateMulti_with_account g services scope level w name :
  accountID g ≠ "" →
  (GenerateMulti g services scope level w).1 ≠ Err (ErrAccountIDRequired name).
Proof.
  intros Hacc.
  destruct (String.eqb_spec (strings.ToLower level) "read") as [Hread|Hread];
    [|destruct (String.eqb_spec (strings.ToLower level) "edit") as [Hedit|Hedit]].
  3: { unfold GenerateMulti.
       destruct (String.eqb_spec (strings.ToLower level) "read"); [done|].
       destruct (String.eqb_spec (strings.ToLower level) "edit"); [done|].
       done. }
  all: assert (valid_level level) as Hlevel by (unfold valid_level; auto).
  all: rewrite GenerateMulti_valid by done.
  all: destruct (GenerateMulti_lookup _ services []) as [svcs|e] eqn:Hlook;
    [|apply GenerateMulti_lookup_Err_kind in Hlook
        as [[s ->]|(n & l & a & ->)]; done].
  all: destruct (GenerateMulti_policy_with_account g (List.filter is_zone svcs)
                   scope (strings.ToLower level) [] Hacc) as [zp ->].
  all: destruct (GenerateMulti_policy_with_account g
                   (List.filter (λ svc, negb (is_zone svc)) svcs)
                   scope (strings.ToLower level) zp Hacc) as [ps ->].
  all: unfold createToken, api_CreateAPIToken; by destruct (CreateAPIToken w _).
Qed.

Lemma GodMode_with_account g w :
  accountID g ≠ "" → (GodMode g w).1 ≠ Err ErrGodModeAccountIDRequired.
Proof.
  intros Hacc. unfold GodMode.
  destruct (String.eqb_spec (accountID g) ""); [done|].
  unfold bind, fetchPermissionGroups.
  destruct (permission_groups w _) as [cause|cause|[] statusCode perms]; try done.
  destruct (GodMode_collect perms) as [zonePerms accountPerms].
  unfold createToken, api_CreateAPIToken; by destruct (CreateAPIToken w _).
Qed.

(** A configuration saved by a successful [init] never runs into the
    missing-account errors: a generator made from it by [New] does not
    return the account-id-required error from [GenerateMulti], whatever is
    requested, nor the one of [GodMode]. *)
Theorem init_config_has_account h h' :
  runInit h = (None, h') →
  ∃ cfg,
    saved h' = saved h ++ [cfg]
    ∧ ∀ h2 g,
        New cfg h2 = inr g →
        (∀ services scope level w name,
           (GenerateMulti g services scope level w).1
           ≠ Err (ErrAccountIDRequired name))
        ∧ (∀ w, (GodMode g w).1 ≠ Err ErrGodModeAccountIDRequired).
Proof.
  intros Hrun. apply runInit_outcome in Hrun as (_ & cfg & Hsaved & _ & Hacc & _).
  exists cfg. split; [done|]. intros h2 g. unfold New.
  destruct (NewWithAPIToken_reply h2 (APIToken cfg)); [done|].
  intros [= <-]. split.
  - intros. by apply GenerateMulti_with_account.
  - intros. by apply GodMode_with_account.
Qed.

End AfterInit.

(** ** Names with a comma *)

Section Commas.

Context `{!strings.Unicode}.

Lemma Contains_cons c s substr :
  strings.Contains (String c s) substr
  = String.prefix substr (String c s) || strings.Contains s substr.
Proof. reflexivity. Qed.

Lemma Contains_comma s :
  strings.Contains s "," = true ↔ In ","%char (list_ascii_of_string s).
Proof.
  induction s as [|c s IH]; [by split|].
  rewrite Contains_cons. cbn [String.prefix list_ascii_of_string In].
  destruct (ascii_dec "," c) as [<-|Hne].
  - assert (String.prefix "" s = true) as -> by (by destruct s).
    split; auto.
  - cbn [orb]. rewrite IH. split; [auto|]. by intros [|].
Qed.

Lemma trim_left_In c s :
  strings.asciiSpace c = false →
  In c (list_ascii_of_string s) →
  In c (list_ascii_of_string (strings.trim_left s)).
Proof.
  intros Hc. induction s as [|a s IH]; simpl; [done|].
  destruct (strings.asciiSpace a) eqn:Ha; [|done].
  intros [->|Hin]; [congruence|auto].
Qed.

Lemma trim_right_In c s :
  strings.asciiSpace c = false →
  In c (list_ascii_of_string s) →
  In c (list_ascii_of_string (strings.trim_right s)).
Proof.
  intros Hc. induction s as [|a s IH]; simpl; [done|].
  intros [->|Hin].
  - destruct (strings.trim_right s); [rewrite Hc|]; simpl; auto.
  - apply IH in Hin. destruct (strings.trim_right s); [done|]. simpl. auto.
Qed.

Lemma ascii_ToLower_In_comma s :
  In ","%char (list_ascii_of_string s) →
  In ","%char (list_ascii_of_string (strings.ascii_ToLower s)).
Proof.
  induction s as [|a s IH]; simpl; [done|].
  intros [->|Hin]; [by left|auto].
Qed.

Lemma trim_left_ascii s :
  strings.is_ascii s = true → strings.is_ascii (strings.trim_left s) = true.
Proof.
  induction s as [|a s IH]; simpl; [done|].
  intros [Ha Hs]%andb_prop. destruct (strings.asciiSpace a); [auto|].
  simpl. by rewrite Ha, Hs.
Qed.

Lemma trim_right_ascii s :
  strings.is_ascii s = true → strings.is_ascii (strings.trim_right s) = true.
Proof.
  induction s as [|a s IH]; simpl; [done|].
  intros [Ha Hs]%andb_prop. specialize (IH Hs).
  destruct (strings.trim_right s); [destruct (strings.asciiSpace a)|]; simpl;
    rewrite ?Ha; simpl; auto.
Qed.

Lemma lookup_key_ascii s :
  strings.is_ascii s = true →
  lookup_key s = strings.ascii_ToLower (strings.ascii_TrimSpace s).
Proof.
  intros Hs. unfold lookup_key. rewrite strings.TrimSpace_ascii by done.
  apply strings.ToLower_ascii. by apply trim_right_ascii, trim_left_ascii.
Qed.

Lemma Services_keys_no_comma k svc :
  Services !! k = Some svc → strings.Contains k "," = false.
Proof.
  intros Hk%Services_lookup_In.
  assert (forallb (λ e, negb (strings.Contains e.1 ",")) Services_entries = true)
    as Hall by (vm_compute; reflexivity).
  rewrite forallb_forall in Hall. apply Hall in Hk. by apply negb_true_iff in Hk.
Qed.

Lemma comma_name_unknown s :
  strings.is_ascii s = true → strings.Contains s "," = true →
  Services !! lookup_key s = None.
Proof.
  intros Hascii Hcomma.
  destruct (Services !! lookup_key s) as [svc|] eqn:Hs; [|done].
  apply Services_keys_no_comma in Hs.
  rewrite lookup_key_ascii in Hs by done.
  assert (strings.Contains (strings.ascii_ToLower (strings.ascii_TrimSpace s)) ","
          = true) as Hin; [|congruence].
  apply Contains_comma, ascii_ToLower_In_comma.
  apply trim_right_In, trim_left_In; [done..|]. by apply Contains_comma.
Qed.

(** A name is never split: an (ASCII) argument that contains a comma, such
    as a comma-separated list of services, is looked up as one name and is
    unknown, to [Generate] and so to the [generate] command, which then
    only reports the error. *)
Theorem names_are_not_split s :
  strings.is_ascii s = true → strings.Contains s "," = true →
  (∀ g scope w, Generate g s scope w = (Err (ErrUnknownService s), w))
  ∧ (∀ RuneCountInString range_Services sort_Slice p scope extra h cfg g,
       LoadConfig_reply h = inr cfg → New cfg h = inr g →
       main RuneCountInString range_Services sort_Slice
         (p :: "generate" :: s :: scope :: extra) h
       = (1%Z, print (StderrError (ErrLibrary (ErrUnknownService s))) h)).
Proof.
  intros Hascii Hcomma.
  assert (∀ g scope w, Generate g s scope w = (Err (ErrUnknownService s), w))
    as Hgen.
  { intros g scope w. unfold Generate.
    rewrite GenerateMulti_valid by apply valid_level_edit.
    cbn [GenerateMulti_lookup].
    pose proof (comma_name_unknown s Hascii Hcomma) as Hs.
    unfold lookup_key in Hs. by rewrite Hs. }
  split; [done|].
  intros RC rs ss p scope extra h cfg g Hcfg Hnew.
  unfold main. cbn [length Nat.ltb Nat.leb nth String.eqb Ascii.eqb Bool.eqb].
  unfold runGenerate. cbn [length Nat.ltb Nat.leb nth].
  rewrite Hcfg, Hnew, Hgen. cbn [report]. by destruct h.
Qed.

End Commas.

(** ** The commands of [main] *)

Section Commands.

Context `{!strings.Unicode}.

Variable RuneCountInString : string → nat.
Variable range_Services : list Service.t.
Variable sort_Slice :
  (Service.t → Service.t → bool) → list Service.t → list Service.t.

Lemma printed_fold_print {A} (f : A → output) (l : list A) h :
  printed (fold_left (λ h x, print (f x) h) l h) = printed h ++ List.map f l
  ∧ only_io h (fold_left (λ h x, print (f x) h) l h)
  ∧ stdin (fold_left (λ h x, print (f x) h) l h) = stdin h.
Proof.
  revert h. induction l as [|x l IH]; intros h; simpl.
  - rewrite app_nil_r. split; [done|]. split; [apply only_io_refl|done].
  - destruct (IH (print (f x) h)) as (-> & Hio & ->). simpl.
    rewrite <- app_assoc. split; [done|]. split; [|done].
    eapply only_io_trans; [apply only_io_print|exact Hio].
Qed.

Lemma only_io_printUsage h : only_io h (printUsage h).
Proof. apply only_io_print. Qed.

Lemma only_io_then_print o h h1 : only_io h h1 → only_io h (print o h1).
Proof. intros Hio. eapply only_io_trans; [exact Hio|apply only_io_print]. Qed.

Lemma only_io_runListServices h :
  only_io h (runListServices RuneCountInString range_Services sort_Slice h).
Proof.
  unfold runListServices.
  eapply only_io_trans;
    [|eapply (proj1 (proj2 (printed_fold_print _ _ _)))].
  eapply only_io_trans; [|apply only_io_print].
  eapply only_io_trans; [|apply only_io_print]. apply only_io_print.
Qed.

Lemma only_io_runListZones h r h' :
  runListZones RuneCountInString h = (r, h') → only_io h h'.
Proof.
  unfold runListZones.
  destruct (LoadConfig_reply h) as [cause|cfg]; [intros [= _ <-]; apply only_io_refl|].
  destruct (New cfg h) as [cause|gen]; [intros [= _ <-]; apply only_io_refl|].
  destruct (ListZones_reply h (apiToken gen)) as [cause|[|z zones]];
    intros [= _ <-]; [apply only_io_refl|apply only_io_print|].
  eapply only_io_trans;
    [|eapply (proj1 (proj2 (printed_fold_print _ _ _)))].
  repeat apply only_io_then_print. apply only_io_refl.
Qed.

Lemma runGenerate_saved args h r h' :
  runGenerate args h = (r, h') → saved h' = saved h.
Proof.
  unfold runGenerate. destruct (length args <? 4)%nat; [by intros [= _ <-]|].
  destruct (LoadConfig_reply h) as [cause|cfg]; [by intros [= _ <-]|].
  destruct (New cfg h) as [cause|gen]; [by intros [= _ <-]|].
  destruct (Generate gen _ _ (platform h)) as [[token|e] w]; by intros [= _ <-].
Qed.

Lemma report_fields r h code h' :
  report (r, h) = (code, h') →
  (code = 0%Z ∨ code = 1%Z) ∧ saved h' = saved h ∧ platform h' = platform h.
Proof. destruct r; intros [= <- <-]; simpl; auto. Qed.

(** Which command can do what.  The exit status of [main] is 0 or 1.  Only
    [generate] can reach the token-creation endpoint and only [init] can
    save a configuration; every other first argument, recognised or not,
    leaves both alone. *)
Theorem main_effects args h code h' :
  main RuneCountInString range_Services sort_Slice args h = (code, h') →
  (code = 0%Z ∨ code = 1%Z)
  ∧ (platform h' ≠ platform h → nth 1 args "" = "generate")
  ∧ (saved h' ≠ saved h → nth 1 args "" = "init").
Proof.
  unfold main. destruct (length args <? 2)%nat.
  { intros [= <- <-]. simpl. split; [auto|]. split; intros []; done. }
  destruct (String.eqb_spec (nth 1 args "") "init") as [Hinit|_].
  { destruct (runInit h) as [r h1] eqn:Hrun.
    apply runInit_outcome in Hrun as [Hplat _].
    intros (? & _ & Hp)%report_fields.
    split; [done|]. split; [|done]. intros []. congruence. }
  destruct (String.eqb_spec (nth 1 args "") "generate") as [Hgen|_].
  { destruct (runGenerate args h) as [r h1] eqn:Hrun.
    apply runGenerate_saved in Hrun.
    intros (? & Hs & _)%report_fields.
    split; [done|]. split; [done|]. intros []. congruence. }
  destruct (String.eqb (nth 1 args "") "list-services").
  { intros [= <- <-].
    pose proof (only_io_runListServices h) as (_ & ? & ? & _).
    split; [auto|]. split; intros []; done. }
  destruct (String.eqb (nth 1 args "") "list-zones").
  { destruct (runListZones RuneCountInString h) as [r h1] eqn:Hrun.
    apply only_io_runListZones in Hrun as (_ & ? & ? & _).
    intros (? & Hs & Hp)%report_fields.
    split; [done|]. split; intros []; congruence. }
  destruct (_ || _ || _); intros [= <- <-]; simpl;
    (split; [auto|]); split; intros []; done.
Qed.


(** [list-services] needs no configuration and no network: it only prints,
    after the three header lines, one row per service of the catalog in
    ascending order of name, and exits with 0. *)
Theorem list_services_command p rest h :
  range_Services ≡ₚ (map_to_list Services).*2 →
  (∀ l, sort_Slice ListServices_less l ≡ₚ l) →
  (∀ l, Sorted (λ a b, ListServices_less b a = false)
          (sort_Slice ListServices_less l)) →
  let row a b c :=
    Stdout ("  " +:+ pad_right RuneCountInString 16 a +:+ " "
            +:+ pad_right RuneCountInString 10 b +:+ " " +:+ c +:+ nl) in
  ∃ h',
    main RuneCountInString range_Services sort_Slice
      (p :: "list-services" :: rest) h = (0%Z, h')
    ∧ only_io h h' ∧ stdin h' = stdin h
    ∧ printed h'
      = printed h
        ++ [ Stdout ("Available services:" +:+ nl +:+ nl);
             row "SERVICE" "SCOPE" "DESCRIPTION";
             row "-------" "-----" "-----------" ]
        ++ List.map
             (λ svc, row (Service.Name svc) (Service.ResourceScope svc)
                       (Service.Description svc))
             sorted_catalog.
Proof.
  intros Hrange Hperm Hsorted row.
  eexists. split; [reflexivity|].
  split; [apply only_io_runListServices|].
  unfold runListServices.
  destruct (ListServices_sorted_catalog range_Services sort_Slice
              Hrange Hperm Hsorted) as [-> _].
  split.
  - erewrite (proj2 (proj2 (printed_fold_print _ _ _))). reflexivity.
  - erewrite (proj1 (printed_fold_print _ _ _)). simpl.
    by rewrite <- !app_assoc.
Qed.

End Commands.

(** ** Choosing from the list that [init] shows *)

Section Selection.

Context `{!strings.Unicode}.

Lemma print_entries_fields i entries h :
  stdin (print_entries i entries h) = stdin h
  ∧ intSize (print_entries i entries h) = intSize h
  ∧ printed (print_entries i entries h)
    = printed h ++ imap (λ j e, entry_line (i + j + 1) e.1 e.2) entries.
Proof.
  revert i h. induction entries as [|[name id] entries IH]; intros i h;
    cbn [print_entries].
  - by rewrite app_nil_r.
  - change (print (Stdout _) h) with (print (entry_line (i + 1) name id) h).
    destruct (IH (S i) (print (entry_line (i + 1) name id) h)) as (Hin & Hint & Hout).
    split; [by rewrite Hin|]. split; [by rewrite Hint|].
    etrans; [exact Hout|]. cbn [print printed]. rewrite <- app_assoc.
    f_equal. rewrite imap_cons. cbn [app fst snd]. rewrite Nat.add_0_r.
    f_equal. apply imap_ext. intros j e _. cbn [compose].
    by replace (S i + j + 1)%nat with (i + S j + 1)%nat by lia.
Qed.

Lemma readLine_fields h :
  intSize (readLine h).2 = intSize h ∧ printed (readLine h).2 = printed h.
Proof. unfold readLine. by destruct (ReadString_nl (stdin h)). Qed.

Lemma readLine_stdin h1 h2 :
  stdin h1 = stdin h2 → (readLine h1).1 = (readLine h2).1.
Proof.
  unfold readLine. intros ->. by destruct (ReadString_nl (stdin h2)).
Qed.

(** The listed number chooses the listed entry.  When [init] shows the
    accounts (or the zones) and the line typed is the number printed in
    front of one of them, the identifier taken is that entry's, and the
    line that was printed for the entry carries this number, the entry's
    name and this identifier. *)
Theorem listed_number_selects apiToken h k :
  (∀ accounts a,
     Accounts_reply h apiToken = inr accounts →
     accounts !! k = Some a →
     (Z.of_nat (length accounts) ≤ 2 ^ (intSize h - 1) - 1)%Z →
     (readLine h).1 = format_d (k + 1) →
     (discover_account apiToken h).1 = cfAccount.ID a
     ∧ In (entry_line (k + 1) (cfAccount.Name a) (cfAccount.ID a))
          (printed (discover_account apiToken h).2))
  ∧ (∀ zones z,
       ListZones_reply h apiToken = inr zones →
       zones !! k = Some z →
       (Z.of_nat (length zones) ≤ 2 ^ (intSize h - 1) - 1)%Z →
       (readLine h).1 = format_d (k + 1) →
       (discover_zone apiToken h).1 = cfZone.ID z
       ∧ In (entry_line (k + 1) (cfZone.Name z) (cfZone.ID z))
            (printed (discover_zone apiToken h).2)).
Proof.
  split.
  - intros accounts a Hreply Hk Hfit Htyped. unfold discover_account.
    rewrite Hreply. destruct accounts as [|a0 accounts']; [done|].
    set (accounts := a0 :: accounts') in *.
    set (entries := List.map (λ a, (cfAccount.Name a, cfAccount.ID a)) accounts).
    set (h1 := print _ (print_entries 0 entries (print _ h))).
    destruct (print_entries_fields 0 entries
                (print (Stdout (nl +:+ "Available accounts:" +:+ nl)) h))
      as (Hin & Hint & Hout).
    assert ((readLine h1).1 = format_d (k + 1)) as Hinput.
    { rewrite <- Htyped. apply readLine_stdin. subst h1. cbn [print stdin].
      by rewrite Hin. }
    destruct (readLine_fields h1) as [Hint1 Hout1].
    destruct (readLine h1) as [input h2]. cbn [fst snd] in *. subst input.
    split.
    + rewrite Hint1. subst h1. cbn [print intSize]. rewrite Hint.
      cbn [print intSize].
      rewrite select_entry_format_d.
      * apply nth_lookup_Some. by rewrite list_lookup_fmap, Hk.
      * by rewrite length_map.
      * rewrite length_map. by apply lookup_lt_Some in Hk.
    + rewrite Hout1. subst h1. cbn [print printed]. rewrite Hout.
      apply in_or_app. left. apply in_or_app. right. apply list_elem_of_In.
      apply (elem_of_lookup_imap_2
               (λ j e, entry_line (0 + j + 1) e.1 e.2) entries
               (cfAccount.Name a, cfAccount.ID a) k).
      subst entries. by rewrite list_lookup_fmap, Hk.
  - intros zones z Hreply Hk Hfit Htyped. unfold discover_zone.
    rewrite Hreply. destruct zones as [|z0 zones']; [done|].
    set (zones := z0 :: zones') in *.
    set (entries := List.map (λ z, (cfZone.Name z, cfZone.ID z)) zones).
    set (h1 := print _ (print_entries 0 entries (print _ h))).
    destruct (print_entries_fields 0 entries
                (print (Stdout (nl +:+ "Available zones:" +:+ nl)) h))
      as (Hin & Hint & Hout).
    assert ((readLine h1).1 = format_d (k + 1)) as Hinput.
    { rewrite <- Htyped. apply readLine_stdin. subst h1. cbn [print stdin].
      by rewrite Hin. }
    destruct (readLine_fields h1) as [Hint1 Hout1].
    destruct (readLine h1) as [input h2]. cbn [fst snd] in *. subst input.
    rewrite format_d_not_empty. cbn [fst snd].
    split.
    + rewrite Hint1. subst h1. cbn [print intSize]. rewrite Hint.
      cbn [print intSize].
      rewrite select_entry_format_d.
      * apply nth_lookup_Some. by rewrite list_lookup_fmap, Hk.
      * by rewrite length_map.
      * rewrite length_map. by apply lookup_lt_Some in Hk.
    + rewrite Hout1. subst h1. cbn [print printed]. rewrite Hout.
      apply in_or_app. left. apply in_or_app. right. apply list_elem_of_In.
      apply (elem_of_lookup_imap_2
               (λ j e, entry_line (0 + j + 1) e.1 e.2) entries
               (cfZone.Name z, cfZone.ID z) k).
      subst entries. by rewrite list_lookup_fmap, Hk.
Qed.

End Selection.

(** ** The command line on a concrete host *)

Lemma select_entry_by_number_witness :
  select_entry 64 ["acc1"; "acc2"] "2" = "acc2".
Proof.
  apply (proj1 (select_entry_by_number 64 ["acc1"; "acc2"]) 1%nat).
  - vm_compute. discriminate.
  - repeat constructor.
Defined.

Lemma listed_number_selects_witness :
  (discover_account "boot" (set_stdin ("1" +:+ nl) demo_host)).1 = "acc1"
  ∧ In (entry_line 1 "Main" "acc1")
       (printed (discover_account "boot" (set_stdin ("1" +:+ nl) demo_host)).2).
Proof.
  apply (proj1 (listed_number_selects "boot" (set_stdin ("1" +:+ nl) demo_host) 0)
           [cfAccount.mk "acc1" "Main"] (cfAccount.mk "acc1" "Main")).
  - reflexivity.
  - reflexivity.
  - vm_compute. discriminate.
  - vm_compute. reflexivity.
Defined.

Lemma runInit_saves_checked_config_witness :
  platform (runInit demo_host).2 = platform demo_host
  ∧ ∃ cfg,
      saved (runInit demo_host).2 = saved demo_host ++ [cfg]
      ∧ APIToken cfg ≠ "" ∧ AccountID cfg ≠ ""
      ∧ NewWithAPIToken_reply demo_host (APIToken cfg) = None
      ∧ VerifyAPIToken_reply demo_host (APIToken cfg) = None.
Proof.
  apply (runInit_saves_checked_config demo_host None (runInit demo_host).2).
  vm_compute. reflexivity.
Defined.

Lemma init_config_has_account_witness :
  (GenerateMulti (mkGenerator "boot" "acc1" "") ["kv"] "all" "edit" (idle [])).1
  ≠ Err (ErrAccountIDRequired "kv").
Proof.
  destruct (init_config_has_account demo_host (runInit demo_host).2)
    as (cfg & Hsaved & Hall).
  - vm_compute. reflexivity.
  - vm_compute in Hsaved. injection Hsaved as <-.
    destruct (Hall demo_host (mkGenerator "boot" "acc1" "")) as [Hgen _].
    + vm_compute. reflexivity.
    + apply Hgen.
Defined.

Lemma names_are_not_split_witness :
  Generate demo_generator "workers,kv" "all" (idle [])
  = (Err (ErrUnknownService "workers,kv"), idle []).
Proof.
  destruct (names_are_not_split "workers,kv") as [Hgen _].
  - vm_compute. reflexivity.
  - vm_compute. reflexivity.
  - apply Hgen.
Defined.

Lemma main_effects_witness :
  saved (demo_main ["cloudflaretokengenerator"; "generate"; "dns"; "all"] demo_host).2
  = saved demo_host.
Proof.
  destruct (main_effects String.length (map_to_list Services).*2 merge_sort_Slice
              ["cloudflaretokengenerator"; "generate"; "dns"; "all"] demo_host
              (demo_main ["cloudflaretokengenerator"; "generate"; "dns"; "all"]
                 demo_host).1
              (demo_main ["cloudflaretokengenerator"; "generate"; "dns"; "all"]
                 demo_host).2)
    as (_ & _ & Hsaved).
  - vm_compute. reflexivity.
  - destruct (decide (saved (demo_main ["cloudflaretokengenerator"; "generate";
                                        "dns"; "all"] demo_host).2
                      = saved demo_host)) as [Heq|Hne]; [exact Heq|].
    apply Hsaved in Hne. vm_compute in Hne. discriminate.
Defined.


Lemma list_services_command_witness :
  ∃ h',
    demo_main ["cloudflaretokengenerator"; "list-services"] demo_host = (0%Z, h')
    ∧ stdin h' = stdin demo_host
    ∧ length (printed h') = 21%nat.
Proof.
  pose proof (list_services_command String.length (map_to_list Services).*2
                merge_sort_Slice "cloudflaretokengenerator" [] demo_host)
    as Hcommand.
  cbv zeta in Hcommand.
  destruct Hcommand as (h' & Hmain & _ & Hstdin & Hprinted).
  - reflexivity.
  - intros l. apply merge_sort_Permutation.
  - intros l.
    apply (@Sorted_merge_sort _ (λ a b, ListServices_less b a = false) _
             ListServices_less_total).
  - exists h'. split; [exact Hmain|]. split; [exact Hstdin|].
    rewrite Hprinted. vm_compute. reflexivity.
Defined.
